(** * Streaming side of the OpenAI Responses client

    A shallow embedding of [client/responses.go] (the stream reader
    [ResponsesStream.Recv], the accumulator [ResponsesStreamAccumulator.AddChunk]
    and the materializer [ResponsesStreamAccumulator.ToResponse]) together with
    the structs of package [models] they operate on.

    Conventions.
    - Go [int] and [int64] values are integers in [Z]; no arithmetic of the
      modelled code can leave the 64-bit range except the float conversion,
      which is written out in [int_of_float64].
    - Go strings are byte strings: [string].
    - A slice is a [list]; where the code tests a slice against [nil]
      (the [ToolCalls] of a choice) the field is an [option (list _)], with
      [None] for [nil].
    - The accumulator is mutated in place through a pointer receiver: the
      methods are programs in a state monad over the accumulator, and a Go
      run-time panic (index out of range) is an outcome of its own that keeps
      the state reached when the panic was raised. *)

From Stdlib Require Import ZArith QArith.
From stdpp Require Import base option list strings gmap.

Close Scope Q_scope.
Local Open Scope Z_scope.

(** ** Package [models] *)

Record Usage := mkUsage {
  PromptTokens : Z;
  CompletionTokens : Z;
  TotalTokens : Z
}.

Record ResponseMessage := mkMessage {
  msg_Role : string;
  msg_Content : string
}.

(** The anonymous struct of [ResponseToolCall.Function]. *)
Record ToolCallFunction := mkFunction {
  fn_Name : string;
  fn_Arguments : string
}.

Record ResponseToolCall := mkToolCall {
  tc_ID : string;
  tc_CallID : string;
  tc_Type : string;
  tc_Function : ToolCallFunction
}.

Record ResponseChoice := mkChoice {
  choice_Index : Z;
  choice_Message : ResponseMessage;
  choice_FinishReason : string;
  choice_ToolCalls : option (list ResponseToolCall)
}.

Record ResponseResponse := mkResponse {
  resp_ID : string;
  resp_Object : string;
  resp_Created : Z;
  resp_Model : string;
  resp_Choices : list ResponseChoice;
  resp_Usage : option Usage;
  resp_OutputText : string
}.

Record ResponseStreamDelta := mkDelta {
  delta_Role : string;
  delta_Content : string;
  delta_ToolCalls : list ResponseToolCall
}.

Record ResponseStreamChoice := mkStreamChoice {
  sc_Index : Z;
  sc_Delta : ResponseStreamDelta;
  sc_FinishReason : string
}.

Record ResponseStreamResponse := mkChunk {
  chunk_ID : string;
  chunk_Object : string;
  chunk_Created : Z;
  chunk_Model : string;
  chunk_Choices : list ResponseStreamChoice;
  chunk_Usage : option Usage
}.

(** Zero values of the structs. *)
Definition zero_Function : ToolCallFunction := mkFunction "" "".
Definition zero_ToolCall : ResponseToolCall := mkToolCall "" "" "" zero_Function.
Definition zero_Delta : ResponseStreamDelta := mkDelta "" "" [].
Definition zero_Chunk : ResponseStreamResponse := mkChunk "" "" 0 "" [] None.

(** ** The accumulator *)

Record ResponsesStreamAccumulator := mkAcc {
  acc_ID : string;
  acc_Object : string;
  acc_Created : Z;
  acc_Model : string;
  acc_Choices : list ResponseChoice;
  acc_Usage : option Usage
}.

(** [&ResponsesStreamAccumulator{}], as the callers create it. *)
Definition new_accumulator : ResponsesStreamAccumulator :=
  mkAcc "" "" 0 "" [] None.

(** Field assignments. *)
Definition set_ID (v : string) (a : ResponsesStreamAccumulator) :=
  mkAcc v (acc_Object a) (acc_Created a) (acc_Model a) (acc_Choices a) (acc_Usage a).
Definition set_Object (v : string) (a : ResponsesStreamAccumulator) :=
  mkAcc (acc_ID a) v (acc_Created a) (acc_Model a) (acc_Choices a) (acc_Usage a).
Definition set_Created (v : Z) (a : ResponsesStreamAccumulator) :=
  mkAcc (acc_ID a) (acc_Object a) v (acc_Model a) (acc_Choices a) (acc_Usage a).
Definition set_Model (v : string) (a : ResponsesStreamAccumulator) :=
  mkAcc (acc_ID a) (acc_Object a) (acc_Created a) v (acc_Choices a) (acc_Usage a).
Definition set_Choices (v : list ResponseChoice) (a : ResponsesStreamAccumulator) :=
  mkAcc (acc_ID a) (acc_Object a) (acc_Created a) (acc_Model a) v (acc_Usage a).
Definition set_Usage (v : option Usage) (a : ResponsesStreamAccumulator) :=
  mkAcc (acc_ID a) (acc_Object a) (acc_Created a) (acc_Model a) (acc_Choices a) v.

Definition set_Role (v : string) (c : ResponseChoice) :=
  mkChoice (choice_Index c) (mkMessage v (msg_Content (choice_Message c)))
           (choice_FinishReason c) (choice_ToolCalls c).
Definition set_Content (v : string) (c : ResponseChoice) :=
  mkChoice (choice_Index c) (mkMessage (msg_Role (choice_Message c)) v)
           (choice_FinishReason c) (choice_ToolCalls c).
Definition set_FinishReason (v : string) (c : ResponseChoice) :=
  mkChoice (choice_Index c) (choice_Message c) v (choice_ToolCalls c).
Definition set_ToolCalls (v : option (list ResponseToolCall)) (c : ResponseChoice) :=
  mkChoice (choice_Index c) (choice_Message c) (choice_FinishReason c) v.

Definition set_Type (v : string) (t : ResponseToolCall) :=
  mkToolCall (tc_ID t) (tc_CallID t) v (tc_Function t).
Definition set_Name (v : string) (t : ResponseToolCall) :=
  mkToolCall (tc_ID t) (tc_CallID t) (tc_Type t)
             (mkFunction v (fn_Arguments (tc_Function t))).
Definition set_Arguments (v : string) (t : ResponseToolCall) :=
  mkToolCall (tc_ID t) (tc_CallID t) (tc_Type t)
             (mkFunction (fn_Name (tc_Function t)) v).

(** The slot literal the code writes in three places:
    [ResponseChoice{Index: i, Message: ResponseMessage{Role: "assistant"},
    FinishReason: ""}]. *)
Definition fresh_choice (i : Z) : ResponseChoice :=
  mkChoice i (mkMessage "assistant" "") "" None.

(** ** State monad with panics *)

Inductive outcome (A : Type) : Type :=
| Returned (x : A) (a : ResponsesStreamAccumulator)
| Panicked (a : ResponsesStreamAccumulator).
Arguments Returned {A} x a.
Arguments Panicked {A} a.

Definition M (A : Type) : Type := ResponsesStreamAccumulator -> outcome A.

Definition state_of {A} (o : outcome A) : ResponsesStreamAccumulator :=
  match o with Returned _ a => a | Panicked a => a end.

Definition returned {A} (o : outcome A) : bool :=
  match o with Returned _ _ => true | Panicked _ => false end.

Definition ret {A} (x : A) : M A := fun a => Returned x a.
Definition bind {A B} (m : M A) (k : A -> M B) : M B :=
  fun a => match m a with
           | Returned x a' => k x a'
           | Panicked a' => Panicked a'
           end.
Definition get : M ResponsesStreamAccumulator := fun a => Returned a a.
Definition modify (f : ResponsesStreamAccumulator -> ResponsesStreamAccumulator) : M unit :=
  fun a => Returned tt (f a).
Definition panic {A} : M A := fun a => Panicked a.

Declare Scope go_scope.
Delimit Scope go_scope with go.
Notation "x <- m ;; k" := (bind m (fun x => k))
  (at level 100, m at next level, right associativity) : go_scope.
Notation "m ;; k" := (bind m (fun _ => k))
  (at level 100, right associativity) : go_scope.
Notation "'when' b 'then' m" := (if b then m else ret tt)
  (at level 100, b at level 99, m at level 100) : go_scope.

(** [for _, x := range l { body x }] *)
Fixpoint range {A} (l : list A) (body : A -> M unit) : M unit :=
  match l with
  | [] => ret tt
  | x :: rest => (body x ;; range rest body)%go
  end.

Definition nonempty (s : string) : bool := negb (bool_decide (s = "")).
Definition len {A} (l : list A) : Z := Z.of_nat (length l).

(** [a.Choices[idx]] read: panics unless [0 <= idx < len(a.Choices)]. *)
Definition choice_at (idx : Z) : M ResponseChoice :=
  (a <- get ;;
   if idx <? 0 then panic
   else match acc_Choices a !! Z.to_nat idx with
        | Some c => ret c
        | None => panic
        end)%go.

(** [a.Choices[idx].field = ...]: the same bounds check, then the store. *)
Definition update_choice (idx : Z) (f : ResponseChoice -> ResponseChoice) : M unit :=
  (c <- choice_at idx ;;
   modify (fun a => set_Choices (<[Z.to_nat idx := f c]> (acc_Choices a)) a))%go.

(** [a.Choices[idx].ToolCalls[j].field = ...] *)
Definition update_tool_call (idx j : Z) (f : ResponseToolCall -> ResponseToolCall) : M unit :=
  (c <- choice_at idx ;;
   let tcs := default [] (choice_ToolCalls c) in
   if j <? 0 then panic
   else match tcs !! Z.to_nat j with
        | Some t => update_choice idx (set_ToolCalls (Some (<[Z.to_nat j := f t]> tcs)))
        | None => panic
        end)%go.

(** The loop [for len(a.Choices) <= choice.Index { a.Choices = append(...) }].
    Every iteration makes the slice one longer, so
    [choice.Index + 1 - len(a.Choices)] iterations are enough
    ([pad_loop_exit] below). *)
Fixpoint pad_loop (fuel : nat) (idx : Z) : M unit :=
  match fuel with
  | O => ret tt
  | S fuel' =>
      (a <- get ;;
       if len (acc_Choices a) <=? idx then
         (modify (set_Choices (acc_Choices a ++ [fresh_choice (len (acc_Choices a))])) ;;
          pad_loop fuel' idx)
       else ret tt)%go
  end.

Definition ensure_enough_choices (idx : Z) : M unit :=
  (a <- get ;; pad_loop (Z.to_nat (idx + 1 - len (acc_Choices a))) idx)%go.

(** The search loop over the existing tool calls: the position of the first
    one whose ID equals the delta's, [-1] when there is none. *)
Fixpoint find_tool_call (i : Z) (tcs : list ResponseToolCall) (id : string) : Z :=
  match tcs with
  | [] => -1
  | existingToolCall :: rest =>
      if bool_decide (tc_ID existingToolCall = id) then i
      else find_tool_call (i + 1) rest id
  end.

(** Body of [for _, toolCallDelta := range choice.Delta.ToolCalls]. *)
Definition merge_tool_call (idx : Z) (toolCallDelta : ResponseToolCall) : M unit :=
  (c <- choice_at idx ;;
   (when (if choice_ToolCalls c is None then true else false)
    then update_choice idx (set_ToolCalls (Some []))) ;;
   c <- choice_at idx ;;
   let toolCallIndex :=
     find_tool_call 0 (default [] (choice_ToolCalls c)) (tc_ID toolCallDelta) in
   if toolCallIndex =? -1 then
     c <- choice_at idx ;;
     update_choice idx
       (set_ToolCalls (Some (default [] (choice_ToolCalls c) ++
          [mkToolCall (tc_ID toolCallDelta) (tc_CallID toolCallDelta)
             (tc_Type toolCallDelta)
             (mkFunction (fn_Name (tc_Function toolCallDelta))
                         (fn_Arguments (tc_Function toolCallDelta)))])))
   else
     (when (nonempty (tc_Type toolCallDelta))
      then update_tool_call idx toolCallIndex (set_Type (tc_Type toolCallDelta))) ;;
     (when (nonempty (fn_Name (tc_Function toolCallDelta)))
      then update_tool_call idx toolCallIndex
             (set_Name (fn_Name (tc_Function toolCallDelta)))) ;;
     (when (nonempty (fn_Arguments (tc_Function toolCallDelta)))
      then update_tool_call idx toolCallIndex
             (set_Arguments (fn_Arguments (tc_Function toolCallDelta)))))%go.

(** Body of [for _, choice := range chunk.Choices]. *)
Definition merge_choice (choice : ResponseStreamChoice) : M unit :=
  let idx := sc_Index choice in
  let d := sc_Delta choice in
  (ensure_enough_choices idx ;;
   (when (nonempty (delta_Role d))
    then update_choice idx (set_Role (delta_Role d))) ;;
   (when (nonempty (delta_Content d))
    then (c <- choice_at idx ;;
          update_choice idx
            (set_Content (msg_Content (choice_Message c) +:+ delta_Content d)))) ;;
   (when (0 <? len (delta_ToolCalls d))
    then range (delta_ToolCalls d) (merge_tool_call idx)) ;;
   (when (nonempty (sc_FinishReason choice))
    then update_choice idx (set_FinishReason (sc_FinishReason choice))))%go.

(** [func (a *ResponsesStreamAccumulator) AddChunk(chunk *models.ResponseStreamResponse)] *)
Definition AddChunk (chunk : ResponseStreamResponse) : M unit :=
  (a <- get ;;
   (when (bool_decide (acc_ID a = "") && nonempty (chunk_ID chunk))
    then (modify (set_ID (chunk_ID chunk)) ;;
          modify (set_Object (chunk_Object chunk)) ;;
          modify (set_Created (chunk_Created chunk)) ;;
          modify (set_Model (chunk_Model chunk)) ;;
          if 0 <? len (chunk_Choices chunk) then
            modify (set_Choices
              (map (fun c => fresh_choice (sc_Index c)) (chunk_Choices chunk)))
          else
            modify (set_Choices [fresh_choice 0]))) ;;
   (when (if chunk_Usage chunk is Some _ then true else false)
    then modify (set_Usage (chunk_Usage chunk))) ;;
   a <- get ;;
   (when ((len (acc_Choices a) =? 0) && (0 <? len (chunk_Choices chunk)))
    then modify (set_Choices [fresh_choice 0])) ;;
   range (chunk_Choices chunk) merge_choice)%go.

(** The callers' receive loop hands every chunk to [AddChunk], in order. *)
Definition feed (chunks : list ResponseStreamResponse) : M unit :=
  range chunks AddChunk.

(** [func (a *ResponsesStreamAccumulator) ToResponse() *models.ResponseResponse] *)
Definition ToResponse : M ResponseResponse :=
  (a <- get ;;
   let choices :=
     map (fun choice =>
            let out := mkChoice (choice_Index choice) (choice_Message choice)
                                (choice_FinishReason choice) None in
            if 0 <? len (default [] (choice_ToolCalls choice))
            then set_ToolCalls (choice_ToolCalls choice) out
            else out)
         (acc_Choices a) in
   ret (mkResponse (acc_ID a) (acc_Object a) (acc_Created a) (acc_Model a)
                   choices (acc_Usage a) ""))%go.

(** ** Decoded JSON documents

    What [json.Unmarshal] stores in an [interface{}]: [nil], [bool],
    [float64], [string], [[]interface{}] and [map[string]interface{}].
    A JSON number that decodes is a finite [float64], a rational. *)

#[warnings="-register-all"]
Inductive JValue : Type :=
| JNull
| JBool (b : bool)
| JNumber (f : Q)
| JString (s : string)
| JArray (l : list JValue)
| JObject (m : gmap string JValue).

(** Type assertions [v.(string)], [v.(float64)] and
    [v.(map[string]interface{})] on the result of a map lookup, with the
    [ok] flag as the option. *)
Definition as_string (v : option JValue) : option string :=
  match v with Some (JString s) => Some s | _ => None end.
Definition as_float64 (v : option JValue) : option Q :=
  match v with Some (JNumber f) => Some f | _ => None end.
Definition as_object (v : option JValue) : option (gmap string JValue) :=
  match v with Some (JObject m) => Some m | _ => None end.

(** [x, _ := v.(string)]: the zero value when the assertion fails. *)
Definition string_of (v : option JValue) : string := default "" (as_string v).

(** [int(f)] and [int64(f)] for a [float64]: the fraction is discarded.
    For a value outside the 64-bit range Go leaves the result to the
    implementation; amd64 yields the least [int64]. *)
Definition int_of_float64 (f : Q) : Z :=
  let t := Z.quot (Qnum f) (Z.pos (Qden f)) in
  if (- 2 ^ 63 <=? t) && (t <? 2 ^ 63) then t else - 2 ^ 63.

Definition int_of (v : option JValue) : Z :=
  match as_float64 v with Some f => int_of_float64 f | None => 0 end.

(** ** Package [strings] *)

Definition is_byte (n : N) (c : Ascii.ascii) : bool := N.eqb (Ascii.N_of_ascii c) n.

(** UTF-8 encodings of the white-space runes of [unicode.IsSpace] beyond
    ASCII: U+0085, U+00A0; U+1680, U+2000..U+200A, U+2028, U+2029, U+202F,
    U+205F, U+3000. *)
Definition space2 (c0 c1 : Ascii.ascii) : bool :=
  is_byte 194 c0 && (is_byte 133 c1 || is_byte 160 c1).
Definition space3 (c0 c1 c2 : Ascii.ascii) : bool :=
  (is_byte 225 c0 && is_byte 154 c1 && is_byte 128 c2)
  || (is_byte 226 c0 && is_byte 128 c1 &&
      ((N.leb 128 (Ascii.N_of_ascii c2) && N.leb (Ascii.N_of_ascii c2) 138)
       || is_byte 168 c2 || is_byte 169 c2 || is_byte 175 c2))
  || (is_byte 226 c0 && is_byte 129 c1 && is_byte 159 c2)
  || (is_byte 227 c0 && is_byte 128 c1 && is_byte 128 c2).

(** Drops the white-space runes [s] starts with. With [backwards] the
    string is read from its end (it is given reversed), so the bytes of a
    rune come last byte first. *)
Fixpoint drop_spaces (backwards : bool) (s : string) : string :=
  let sp2 a b := if backwards then space2 b a else space2 a b in
  let sp3 a b c := if backwards then space3 c b a else space3 a b c in
  match s with
  | String c0 (String c1 (String c2 r3 as r2) as r1) =>
      if Ascii.is_space c0 then drop_spaces backwards r1
      else if sp2 c0 c1 then drop_spaces backwards r2
      else if sp3 c0 c1 c2 then drop_spaces backwards r3
      else s
  | String c0 (String c1 r2 as r1) =>
      if Ascii.is_space c0 then drop_spaces backwards r1
      else if sp2 c0 c1 then drop_spaces backwards r2
      else s
  | String c0 r1 =>
      if Ascii.is_space c0 then drop_spaces backwards r1 else s
  | EmptyString => s
  end.

(** [strings.TrimSpace] *)
Definition TrimSpace (s : string) : string :=
  String.rev (drop_spaces true (String.rev (drop_spaces false s))).

Fixpoint strip_prefix (prefix s : string) : option string :=
  match prefix, s with
  | EmptyString, _ => Some s
  | String p prefix', String c s' =>
      if bool_decide (p = c) then strip_prefix prefix' s' else None
  | String _ _, EmptyString => None
  end.

(** [strings.HasPrefix] and [strings.TrimPrefix] *)
Definition HasPrefix (s prefix : string) : bool :=
  if strip_prefix prefix s is Some _ then true else false.
Definition TrimPrefix (s prefix : string) : string :=
  default s (strip_prefix prefix s).

(** ** The stream *)

(** The [error] values the stream can hold: [io.EOF], another error of the
    transport, or the error of [json.Unmarshal] (never [io.EOF]). *)
Inductive error : Type :=
| io_EOF
| read_error (msg : string)
| json_error (msg : string).

Global Instance error_eq_dec : EqDecision error.
Proof. solve_decision. Defined.

(** The buffered reader over the response body: the lines
    [ReadString('\n')] will still return, each with its delimiter, and the
    error of the read after them ([io.EOF] at an orderly end of data).
    Data returned together with an error is dropped by [Recv] unseen and is
    not represented. *)
Record Reader := mkReader {
  rd_lines : list string;
  rd_fail : error
}.

Record ResponsesStream := mkStream {
  reader : Reader;
  err : option error
}.

(** What [Recv] returns: [(response, nil)] or [(nil, err)]. *)
Inductive received : Type :=
| Chunk (response : ResponseStreamResponse)
| Failed (e : error).

(** A chunk with the single choice the decoder builds:
    [response.Choices = []ResponseStreamChoice{{Index: idx, Delta: d}}]. *)
Definition one_choice (idx : Z) (d : ResponseStreamDelta) : ResponseStreamResponse :=
  mkChunk "" "" 0 "" [mkStreamChoice idx d ""] None.

Definition tool_call_delta (t : ResponseToolCall) : ResponseStreamDelta :=
  mkDelta "" "" [t].

(** [case c1, c2, ...:] of a switch on the string [s]. *)
Definition one_of (s : string) (cases : list string) : bool :=
  existsb (String.eqb s) cases.

(** [response.ID], [Object], [Created] and [Model] from [respData]. *)
Definition identity_from (respData : gmap string JValue)
    (response : ResponseStreamResponse) : ResponseStreamResponse :=
  mkChunk (string_of (respData !! "id"))
          (string_of (respData !! "object"))
          (match as_float64 (respData !! "created_at") with
           | Some createdAt => int_of_float64 createdAt
           | None => chunk_Created response
           end)
          (string_of (respData !! "model"))
          (chunk_Choices response) (chunk_Usage response).

Definition usage_from (respData : gmap string JValue)
    (response : ResponseStreamResponse) : ResponseStreamResponse :=
  match as_object (respData !! "usage") with
  | Some usageData =>
      mkChunk (chunk_ID response) (chunk_Object response) (chunk_Created response)
              (chunk_Model response) (chunk_Choices response)
              (Some (mkUsage (int_of (usageData !! "prompt_tokens"))
                             (int_of (usageData !! "completion_tokens"))
                             (int_of (usageData !! "total_tokens"))))
  | None => response
  end.

(** The [switch eventType] of [Recv]: the response built from the event and
    whether the case sets [s.err = io.EOF]. *)
Definition decode_event (eventData : gmap string JValue) : ResponseStreamResponse * bool :=
  let response := zero_Chunk in
  let eventType := string_of (eventData !! "type") in
  if one_of eventType ["response.created"; "response.in_progress"] then
    match as_object (eventData !! "response") with
    | Some respData => (identity_from respData response, false)
    | None => (response, false)
    end
  else if one_of eventType ["response.output_text.delta"] then
    let delta := string_of (eventData !! "delta") in
    (one_choice 0 (mkDelta "" delta []), false)
  else if one_of eventType ["response.output_item.added"] then
    match as_object (eventData !! "item"), as_float64 (eventData !! "output_index") with
    | Some item, Some index =>
        if bool_decide (string_of (item !! "type") = "function_call") then
          (one_choice (int_of_float64 index)
             (tool_call_delta
                (mkToolCall (string_of (item !! "id")) (string_of (item !! "call_id"))
                   "function" (mkFunction (string_of (item !! "name")) ""))), false)
        else (response, false)
    | _, _ => (response, false)
    end
  else if one_of eventType ["response.output_item.done"] then
    match as_object (eventData !! "item"), as_float64 (eventData !! "output_index") with
    | Some item, Some index =>
        if bool_decide (string_of (item !! "type") = "function_call") then
          (one_choice (int_of_float64 index)
             (tool_call_delta
                (mkToolCall (string_of (item !! "id")) (string_of (item !! "call_id"))
                   "function"
                   (mkFunction (string_of (item !! "name"))
                               (string_of (item !! "arguments"))))), false)
        else (response, false)
    | _, _ => (response, false)
    end
  else if one_of eventType ["response.file_search_call.in_progress";
                            "response.file_search_call.searching";
                            "response.file_search_call.completed"] then
    match as_float64 (eventData !! "output_index"), as_string (eventData !! "item_id") with
    | Some index, Some itemID =>
        (one_choice (int_of_float64 index)
           (tool_call_delta (mkToolCall itemID "" "file_search" zero_Function)), false)
    | _, _ => (response, false)
    end
  else if one_of eventType ["response.tool_call.created";
                            "response.tool_call.in_progress"] then
    match as_float64 (eventData !! "output_index") with
    | Some index =>
        (one_choice (int_of_float64 index) (tool_call_delta zero_ToolCall), false)
    | None => (response, false)
    end
  else if one_of eventType ["response.tool_call.id"] then
    match as_string (eventData !! "id"), as_float64 (eventData !! "output_index") with
    | Some toolCallID, Some index =>
        (one_choice (int_of_float64 index)
           (tool_call_delta (mkToolCall toolCallID "" "" zero_Function)), false)
    | _, _ => (response, false)
    end
  else if one_of eventType ["response.function_call_arguments.delta"] then
    match as_string (eventData !! "delta"),
          as_float64 (eventData !! "output_index"),
          as_string (eventData !! "item_id") with
    | Some delta, Some index, Some itemID =>
        (one_choice (int_of_float64 index)
           (tool_call_delta (mkToolCall itemID "" "" (mkFunction "" delta))), false)
    | _, _, _ => (response, false)
    end
  else if one_of eventType ["response.function_call_arguments.done"] then
    match as_string (eventData !! "arguments"),
          as_float64 (eventData !! "output_index"),
          as_string (eventData !! "item_id") with
    | Some arguments, Some index, Some itemID =>
        (one_choice (int_of_float64 index)
           (tool_call_delta (mkToolCall itemID "" "" (mkFunction "" arguments))), false)
    | _, _, _ => (response, false)
    end
  else if one_of eventType ["response.completed"; "response.incomplete"] then
    match as_object (eventData !! "response") with
    | Some respData => (usage_from respData (identity_from respData response), true)
    | None => (response, true)
    end
  else (response, false).

(** [len(response.Choices) == 0 && response.ID == "" && response.Usage == nil] *)
Definition nothing_useful (response : ResponseStreamResponse) : bool :=
  (len (chunk_Choices response) =? 0)
  && bool_decide (chunk_ID response = "")
  && (if chunk_Usage response is None then true else false).

Definition data_prefix : string := "data: ".
Definition done_sentinel : string := "[DONE]".

Section Recv.

(** [json.Unmarshal([]byte(data), &eventData)] with
    [eventData map[string]interface{}]: the message of its error, or the
    decoded object (the empty map for the document [null], which leaves
    [eventData] nil). *)
Variable json_Unmarshal : string -> string + gmap string JValue.

(** [Recv] calls itself to skip a line; every such call but the one after
    a terminal event has read one more line, so the recursion is on the
    lines left in the reader. *)
Fixpoint Recv_from (lines : list string) (fail : error) (s_err : option error)
    {struct lines} : received * ResponsesStream :=
  match s_err with
  | Some e => (Failed e, mkStream (mkReader lines fail) (Some e))
  | None =>
      match lines with
      | [] => (Failed fail, mkStream (mkReader [] fail) (Some fail))
      | raw :: rest =>
          let line := TrimSpace raw in
          if bool_decide (line = "") then Recv_from rest fail None
          else if negb (HasPrefix line data_prefix) then Recv_from rest fail None
          else
            let data := TrimPrefix line data_prefix in
            if bool_decide (data = done_sentinel) then
              (Failed io_EOF, mkStream (mkReader rest fail) (Some io_EOF))
            else
              match json_Unmarshal data with
              | inl msg =>
                  (Failed (json_error msg),
                   mkStream (mkReader rest fail) (Some (json_error msg)))
              | inr eventData =>
                  let '(response, terminal) := decode_event eventData in
                  let s_err' := if terminal then Some io_EOF else None in
                  if nothing_useful response then Recv_from rest fail s_err'
                  else (Chunk response, mkStream (mkReader rest fail) s_err')
              end
      end
  end.

(** [func (s *ResponsesStream) Recv()], returning a response and an error. *)
Definition Recv (s : ResponsesStream) : received * ResponsesStream :=
  Recv_from (rd_lines (reader s)) (rd_fail (reader s)) (err s).

End Recv.

(** [func (s *ResponsesStream) Err() error] *)
Definition Err (s : ResponsesStream) : option error :=
  if bool_decide (err s = Some io_EOF) then None else err s.

(** ** The rest of the streaming client and of package [models] *)

(** [func (r ResponseResponse) GetOutputText() string] *)
Definition GetOutputText (r : ResponseResponse) : string :=
  match resp_Choices r with
  | [] => ""
  | c :: _ =>
      if bool_decide (msg_Content (choice_Message c) = "") then ""
      else msg_Content (choice_Message c)
  end.

(** [func (tc ResponseToolCall) GetCallID() string] *)
Definition GetCallID (tc : ResponseToolCall) : string :=
  if nonempty (tc_CallID tc) then tc_CallID tc else tc_ID tc.

Definition responsesEndpoint : string := "/responses".

Section Create.

(** [r.client.post(ctx, responsesEndpoint, request, &response)]: the error,
    or the response decoded from the body. The request and the errors of
    the HTTP client are left abstract. *)
Context {Request HTTPError : Type}.
Variable post : string -> Request -> HTTPError + ResponseResponse.

(** [func (r *Responses) Create(ctx, request)] *)
Definition Create (request : Request) : HTTPError + ResponseResponse :=
  match post responsesEndpoint request with
  | inl e => inl e
  | inr response =>
      inr (match resp_Choices response with
           | c :: _ =>
               if nonempty (msg_Content (choice_Message c)) then
                 mkResponse (resp_ID response) (resp_Object response)
                   (resp_Created response) (resp_Model response)
                   (resp_Choices response) (resp_Usage response)
                   (msg_Content (choice_Message c))
               else response
           | [] => response
           end)
  end.

End Create.

(** The client of [client.go]. Of the [*http.Client] only the timeout the
    constructor sets is kept; [None] is the nil pointer. *)
Record HttpClient := mkHttpClient { http_Timeout : Z }.

Record Client := mkClient {
  BaseURL : string;
  APIKey : string;
  HTTPClient : option HttpClient;
  UserAgent : string;
  Organization : string
}.

Definition DefaultBaseURL : string := "https://api.openai.com/v1".
Definition DefaultUserAgent : string := "openai-responses-api-go/1.0.0".
(** [30 * time.Second], in nanoseconds. *)
Definition DefaultTimeout : Z := 30 * 1000000000.

(** [type ClientOption]: a function that updates the client it is given. *)
Definition ClientOption : Type := Client -> Client.

Definition WithBaseURL (baseURL : string) : ClientOption :=
  fun c => mkClient baseURL (APIKey c) (HTTPClient c) (UserAgent c) (Organization c).
Definition WithAPIKey (apiKey : string) : ClientOption :=
  fun c => mkClient (BaseURL c) apiKey (HTTPClient c) (UserAgent c) (Organization c).
Definition WithHTTPClient (httpClient : option HttpClient) : ClientOption :=
  fun c => mkClient (BaseURL c) (APIKey c) httpClient (UserAgent c) (Organization c).
Definition WithUserAgent (userAgent : string) : ClientOption :=
  fun c => mkClient (BaseURL c) (APIKey c) (HTTPClient c) userAgent (Organization c).
Definition WithOrganization (organization : string) : ClientOption :=
  fun c => mkClient (BaseURL c) (APIKey c) (HTTPClient c) (UserAgent c) organization.

(** [func NewClient(options ...ClientOption) *Client] of package [client];
    [getenv] is the value of [os.Getenv("OPENAI_API_KEY")]. *)
Definition NewClient (getenv : string) (options : list ClientOption) : Client :=
  let client :=
    fold_left (fun client option => option client) options
      (mkClient DefaultBaseURL "" (Some (mkHttpClient DefaultTimeout))
                DefaultUserAgent "") in
  if bool_decide (APIKey client = "") then WithAPIKey getenv client else client.

(** [func NewClient(apiKey string, options ...client.ClientOption) *Client]
    of package [openairesponses]: the base client it wraps. *)
Definition openairesponses_NewClient (getenv apiKey : string)
    (options : list ClientOption) : Client :=
  NewClient getenv (WithAPIKey apiKey :: options).

(** The receive loop of the README and of the examples:
    [for { chunk, err := stream.Recv(); if err == io.EOF { break };
    if err != nil { os.Exit(1) }; accumulator.AddChunk(chunk); ... }].
    Every iteration but the last shortens the reader, so one more
    iteration than the reader has lines is enough fuel. *)
Inductive run : Type :=
| Drained (a : ResponsesStreamAccumulator) (s : ResponsesStream)
| Exited (e : error) (a : ResponsesStreamAccumulator) (s : ResponsesStream)
| Crashed (a : ResponsesStreamAccumulator) (s : ResponsesStream)
| Unfinished.

Fixpoint receive_loop (json_Unmarshal : string -> string + gmap string JValue)
    (fuel : nat) (s : ResponsesStream) (a : ResponsesStreamAccumulator) : run :=
  match fuel with
  | O => Unfinished
  | S fuel' =>
      match Recv json_Unmarshal s with
      | (Failed e, s') =>
          if bool_decide (e = io_EOF) then Drained a s' else Exited e a s'
      | (Chunk chunk, s') =>
          match AddChunk chunk a with
          | Returned _ a' => receive_loop json_Unmarshal fuel' s' a'
          | Panicked a' => Crashed a' s'
          end
      end
  end.

(** * Vocabulary of the statements

    The scalar identity of an accumulator, the effect of the loop bodies of
    [AddChunk] on the slices written as functions (the lemmas further down
    show that the code computes them), readers of the accumulated state,
    the chunks [Recv] builds for the events of the claims, and sample
    frames. *)

Definition identity (a : ResponsesStreamAccumulator) : string * string * Z * string :=
  (acc_ID a, acc_Object a, acc_Created a, acc_Model a).

Definition keeps_identity {A} (m : M A) : Prop :=
  forall a, identity (state_of (m a)) = identity a.

(** The slots the padding loop appends for index [idx]. *)
Definition pad (cs : list ResponseChoice) (idx : Z) : list ResponseChoice :=
  cs ++ map (fun k => fresh_choice (Z.of_nat k))
            (seq (length cs) (Z.to_nat (idx + 1 - len cs))).

(** The tool call an unmatched delta appends. *)
Definition new_tool_call (d : ResponseToolCall) : ResponseToolCall :=
  mkToolCall (tc_ID d) (tc_CallID d) (tc_Type d)
    (mkFunction (fn_Name (tc_Function d)) (fn_Arguments (tc_Function d))).

(** The three guarded assignments to a matched tool call. *)
Definition updated_tool_call (d t : ResponseToolCall) : ResponseToolCall :=
  let t1 := if nonempty (tc_Type d) then set_Type (tc_Type d) t else t in
  let t2 := if nonempty (fn_Name (tc_Function d))
            then set_Name (fn_Name (tc_Function d)) t1 else t1 in
  if nonempty (fn_Arguments (tc_Function d))
  then set_Arguments (fn_Arguments (tc_Function d)) t2 else t2.

Definition merged_tool_calls (tcs : list ResponseToolCall) (d : ResponseToolCall)
    : list ResponseToolCall :=
  let j := find_tool_call 0 tcs (tc_ID d) in
  if j =? -1 then tcs ++ [new_tool_call d]
  else alter (updated_tool_call d) (Z.to_nat j) tcs.

Definition merged_tool_call (d : ResponseToolCall) (c : ResponseChoice) : ResponseChoice :=
  set_ToolCalls (Some (merged_tool_calls (default [] (choice_ToolCalls c)) d)) c.

Definition merged_choice (choice : ResponseStreamChoice) (c : ResponseChoice)
    : ResponseChoice :=
  let d := sc_Delta choice in
  let c1 := if nonempty (delta_Role d) then set_Role (delta_Role d) c else c in
  let c2 := if nonempty (delta_Content d)
            then set_Content (msg_Content (choice_Message c1) +:+ delta_Content d) c1
            else c1 in
  let c3 := fold_left (fun c t => merged_tool_call t c) (delta_ToolCalls d) c2 in
  if nonempty (sc_FinishReason choice)
  then set_FinishReason (sc_FinishReason choice) c3 else c3.

(** The accumulator with slot [n] of its choices replaced. *)
Definition with_choice (a : ResponsesStreamAccumulator) (n : nat) (c : ResponseChoice) :=
  set_Choices (<[n := c]> (acc_Choices a)) a.

Definition merged_choices (cs : list ResponseChoice) (choice : ResponseStreamChoice)
    : list ResponseChoice :=
  alter (merged_choice choice) (Z.to_nat (sc_Index choice)) (pad cs (sc_Index choice)).

Definition initialised (chunk : ResponseStreamResponse) (a : ResponsesStreamAccumulator)
    : ResponsesStreamAccumulator :=
  if bool_decide (acc_ID a = "") && nonempty (chunk_ID chunk) then
    mkAcc (chunk_ID chunk) (chunk_Object chunk) (chunk_Created chunk) (chunk_Model chunk)
          (if 0 <? len (chunk_Choices chunk)
           then map (fun c => fresh_choice (sc_Index c)) (chunk_Choices chunk)
           else [fresh_choice 0])
          (acc_Usage a)
  else a.

Definition added (chunk : ResponseStreamResponse) (a : ResponsesStreamAccumulator)
    : ResponsesStreamAccumulator :=
  let a1 := initialised chunk a in
  let a2 := if chunk_Usage chunk is Some _ then set_Usage (chunk_Usage chunk) a1 else a1 in
  let a3 := if (len (acc_Choices a2) =? 0) && (0 <? len (chunk_Choices chunk))
            then set_Choices [fresh_choice 0] a2 else a2 in
  set_Choices (fold_left merged_choices (chunk_Choices chunk) (acc_Choices a3)) a3.

(** Content and tool calls of the choice at position [n] (empty when the
    position does not exist). *)
Definition content_at (a : ResponsesStreamAccumulator) (n : nat) : string :=
  match acc_Choices a !! n with
  | Some c => msg_Content (choice_Message c)
  | None => ""
  end.

Definition tool_calls_at (a : ResponsesStreamAccumulator) (n : nat)
    : list ResponseToolCall :=
  match acc_Choices a !! n with
  | Some c => default [] (choice_ToolCalls c)
  | None => []
  end.

(** The tool call a delta with identity [x] is matched with: the one the
    search loop of [AddChunk] stops at. *)
Definition slot (tcs : list ResponseToolCall) (x : string) : option ResponseToolCall :=
  let j := find_tool_call 0 tcs x in
  if j =? -1 then None else tcs !! Z.to_nat j.

Definition slot_at (a : ResponsesStreamAccumulator) (n : nat) (x : string)
    : option ResponseToolCall :=
  slot (tool_calls_at a n) x.

Definition name_of (t : ResponseToolCall) : string := fn_Name (tc_Function t).
Definition arguments_of (t : ResponseToolCall) : string := fn_Arguments (tc_Function t).

(** The chunks [Recv] builds for the events of the claims. *)
Definition ContentDelta (idx : Z) (fragment : string) : ResponseStreamResponse :=
  one_choice idx (mkDelta "" fragment []).

Definition ToolCallArguments (idx : Z) (item payload : string) : ResponseStreamResponse :=
  one_choice idx (tool_call_delta (mkToolCall item "" "" (mkFunction "" payload))).

Definition materialized_choice (choice : ResponseChoice) : ResponseChoice :=
  mkChoice (choice_Index choice) (choice_Message choice) (choice_FinishReason choice)
    (match choice_ToolCalls choice with
     | Some (t :: ts) => Some (t :: ts)
     | _ => None
     end).

(** Shape of the choices after the loop over the chunk's choices: nothing
    is dropped, every referenced index is in range, no slot lies beyond
    the old length and the largest referenced index, and an unreferenced
    slot is the old one or a fresh one. *)
Definition padded (choices : list ResponseStreamChoice) (cs cs' : list ResponseChoice)
    : Prop :=
  (length cs <= length cs')%nat
  /\ Forall (fun choice => sc_Index choice < len cs') choices
  /\ (forall k, (k < length cs')%nat ->
        (k < length cs)%nat \/ Exists (fun choice => Z.of_nat k <= sc_Index choice) choices)
  /\ (forall k, Forall (fun choice => sc_Index choice ≠ Z.of_nat k) choices ->
        cs' !! k = if decide (k < length cs)%nat then cs !! k
                   else if decide (k < length cs')%nat
                        then Some (fresh_choice (Z.of_nat k)) else None).

(** The one-byte string holding the double-quote character (byte 34). *)
Definition quote : string := String (Ascii.ascii_of_nat 34) "".
Definition fragment_1 : string := "{" +:+ quote +:+ "a" +:+ quote +:+ ":".
Definition fragment_2 : string := "1}".
Definition full_arguments : string := "{" +:+ quote +:+ "a" +:+ quote +:+ ":1}".

Definition document_identity (doc : ResponseResponse) : string * string * Z * string :=
  (resp_ID doc, resp_Object doc, resp_Created doc, resp_Model doc).

Definition created_chunk : ResponseStreamResponse :=
  mkChunk "resp_1" "response" 1700000000 "gpt-4o" [] None.
Definition completed_chunk : ResponseStreamResponse :=
  mkChunk "resp_2" "response.other" 1700000001 "gpt-4o-mini" []
          (Some (mkUsage 10 20 30)).

Definition weather_call : ResponseToolCall :=
  mkToolCall "x" "call_1" "function" (mkFunction "get_weather" "").
Definition renamed_call : ResponseToolCall :=
  mkToolCall "x" "call_1" "function" (mkFunction "get_time" "{}").

(** The payload of a line that carries one: the line, trimmed, without the
    ["data: "] prefix it starts with. *)
Definition frame_payload (raw : string) : option string :=
  strip_prefix data_prefix (TrimSpace raw).

Definition terminal_kinds : list string :=
  ["response.completed"; "response.incomplete"].

Definition known_kinds : list string :=
  ["response.created"; "response.in_progress"; "response.output_text.delta";
   "response.output_item.added"; "response.output_item.done";
   "response.file_search_call.in_progress"; "response.file_search_call.searching";
   "response.file_search_call.completed";
   "response.tool_call.created"; "response.tool_call.in_progress";
   "response.tool_call.id";
   "response.function_call_arguments.delta"; "response.function_call_arguments.done";
   "response.completed"; "response.incomplete"].

(** Lines [Recv] passes over on its way to the next one: blank lines,
    lines without the prefix, and events that are not terminal and leave
    the response without choice, ID and usage. *)
Definition skipped (json_Unmarshal : string -> string + gmap string JValue)
    (raw : string) : bool :=
  match frame_payload raw with
  | None => true
  | Some data =>
      if bool_decide (data = done_sentinel) then false
      else match json_Unmarshal data with
           | inl _ => false
           | inr eventData =>
               nothing_useful (decode_event eventData).1
               && negb (decode_event eventData).2
           end
  end.

Definition skipped_lines (json_Unmarshal : string -> string + gmap string JValue)
    (pre : list string) : Prop :=
  Forall (fun raw => skipped json_Unmarshal raw = true) pre.

Definition quoted (s : string) : string := quote +:+ s +:+ quote.
Definition newline : string := String (Ascii.ascii_of_nat 10) "".

(** [{"type":"response.completed"}] *)
Definition payload_completed_empty : string :=
  "{" +:+ quoted "type" +:+ ":" +:+ quoted "response.completed" +:+ "}".

(** [{"type":"response.output_text.delta","delta":"Hi"}] *)
Definition payload_text_delta : string :=
  "{" +:+ quoted "type" +:+ ":" +:+ quoted "response.output_text.delta" +:+ ","
  +:+ quoted "delta" +:+ ":" +:+ quoted "Hi" +:+ "}".

(** [{"type":"response.completed","response":{"id":"resp_1","usage":{"prompt_tokens":10,"completion_tokens":20,"total_tokens":30}}}] *)
Definition payload_completed : string :=
  "{" +:+ quoted "type" +:+ ":" +:+ quoted "response.completed" +:+ ","
  +:+ quoted "response" +:+ ":{" +:+ quoted "id" +:+ ":" +:+ quoted "resp_1" +:+ ","
  +:+ quoted "usage" +:+ ":{" +:+ quoted "prompt_tokens" +:+ ":10,"
  +:+ quoted "completion_tokens" +:+ ":20," +:+ quoted "total_tokens" +:+ ":30}}}".

Definition completed_response : gmap string JValue :=
  {[ "id" := JString "resp_1";
     "usage" := JObject {[ "prompt_tokens" := JNumber (10 # 1);
                           "completion_tokens" := JNumber (20 # 1);
                           "total_tokens" := JNumber (30 # 1) ]} ]}.

(** [json.Unmarshal] on the sample payloads; any other text stands for a
    malformed document. *)
Definition sample_Unmarshal (data : string) : string + gmap string JValue :=
  if String.eqb data payload_completed_empty then
    inr {[ "type" := JString "response.completed" ]}
  else if String.eqb data payload_text_delta then
    inr {[ "type" := JString "response.output_text.delta"; "delta" := JString "Hi" ]}
  else if String.eqb data payload_completed then
    inr {[ "type" := JString "response.completed";
           "response" := JObject completed_response ]}
  else inl "invalid character".

Definition frame (payload : string) : string := "data: " +:+ payload +:+ newline.

Definition keep_alive : string := ": keep-alive" +:+ newline.

Ltac skipped_by_evaluation :=
  unfold skipped_lines; repeat (constructor; [by vm_compute|]); constructor.

(** ** Vocabulary of the further properties *)

(** The choice makes the loop body of [AddChunk] read or write
    [a.Choices[choice.Index]]. *)
Definition touches (choice : ResponseStreamChoice) : bool :=
  nonempty (delta_Role (sc_Delta choice))
  || nonempty (delta_Content (sc_Delta choice))
  || (0 <? len (delta_ToolCalls (sc_Delta choice)))
  || nonempty (sc_FinishReason choice).

Definition mergeable (choice : ResponseStreamChoice) : bool :=
  (0 <=? sc_Index choice) || negb (touches choice).

(** The accumulator when the loop over the chunk's choices starts. *)
Definition prepared (chunk : ResponseStreamResponse) (a : ResponsesStreamAccumulator)
    : ResponsesStreamAccumulator :=
  let a1 := initialised chunk a in
  let a2 := if chunk_Usage chunk is Some _ then set_Usage (chunk_Usage chunk) a1 else a1 in
  if (len (acc_Choices a2) =? 0) && (0 <? len (chunk_Choices chunk))
  then set_Choices [fresh_choice 0] a2 else a2.

(** The action changes no field of the accumulator but the choices. *)
Definition only_choices {A} (m : M A) : Prop :=
  forall a, exists cs, state_of (m a) = set_Choices cs a.

Definition role_at (a : ResponsesStreamAccumulator) (n : nat) : string :=
  match acc_Choices a !! n with
  | Some c => msg_Role (choice_Message c)
  | None => "assistant"
  end.

Definition finish_reason_at (a : ResponsesStreamAccumulator) (n : nat) : string :=
  match acc_Choices a !! n with
  | Some c => choice_FinishReason c
  | None => ""
  end.

(** Content of the slot at position [k] of a choice slice. *)
Definition content_in (cs : list ResponseChoice) (k : nat) : string :=
  match cs !! k with
  | Some c => msg_Content (choice_Message c)
  | None => ""
  end.

(** Every slot carries its position as index. *)
Definition indexed (cs : list ResponseChoice) : Prop :=
  forall k c, cs !! k = Some c -> choice_Index c = Z.of_nat k.

(** Within every choice the tool calls have pairwise different IDs. *)
Definition distinct_identities (cs : list ResponseChoice) : Prop :=
  Forall (fun c => NoDup (map tc_ID (default [] (choice_ToolCalls c)))) cs.

(** Role and finish reason are the ones of a fresh slot. *)
Definition plain (cs : list ResponseChoice) : Prop :=
  Forall (fun c => msg_Role (choice_Message c) = "assistant"
                   /\ choice_FinishReason c = "") cs.

(** The chunk is one [Recv] can build. *)
Definition decoded (chunk : ResponseStreamResponse) : Prop :=
  exists eventData : gmap string JValue, chunk = (decode_event eventData).1.

(** The options the package exports, as data. *)
Inductive option_spec : Type :=
| SetBaseURL (baseURL : string)
| SetAPIKey (apiKey : string)
| SetHTTPClient (httpClient : option HttpClient)
| SetUserAgent (userAgent : string)
| SetOrganization (organization : string).

Definition option_of (o : option_spec) : ClientOption :=
  match o with
  | SetBaseURL u => WithBaseURL u
  | SetAPIKey k => WithAPIKey k
  | SetHTTPClient h => WithHTTPClient h
  | SetUserAgent u => WithUserAgent u
  | SetOrganization o => WithOrganization o
  end.

(** The value the last option of a kind sets, [d] when there is none. *)
Definition last_set {A} (pick : option_spec -> option A) (d : A)
    (os : list option_spec) : A :=
  fold_left (fun v o => default v (pick o)) os d.

Definition picks_BaseURL (o : option_spec) : option string :=
  if o is SetBaseURL u then Some u else None.
Definition picks_APIKey (o : option_spec) : option string :=
  if o is SetAPIKey k then Some k else None.
Definition picks_HTTPClient (o : option_spec) : option (option HttpClient) :=
  if o is SetHTTPClient h then Some h else None.
Definition picks_UserAgent (o : option_spec) : option string :=
  if o is SetUserAgent u then Some u else None.
Definition picks_Organization (o : option_spec) : option string :=
  if o is SetOrganization g then Some g else None.

(** * Properties of the accumulator *)

(** ** The monad *)

Lemma bind_Returned {A B} (m : M A) (k : A -> M B) a x a' :
  m a = Returned x a' -> bind m k a = k x a'.
Proof. unfold bind. by intros ->. Qed.

Lemma bind_Panicked {A B} (m : M A) (k : A -> M B) a a' :
  m a = Panicked a' -> bind m k a = Panicked a'.
Proof. unfold bind. by intros ->. Qed.

Lemma range_app {A} (l1 l2 : list A) (body : A -> M unit) a :
  range (l1 ++ l2) body a = bind (range l1 body) (fun _ => range l2 body) a.
Proof.
  revert a. induction l1 as [|x l1 IH]; intros a; simpl; [done|].
  unfold bind in *. destruct (body x a) as [[] a1|a1]; [apply IH|done].
Qed.

(** ** The scalar identity fields are written by the first-id block only *)

Lemma keeps_ret {A} (x : A) : keeps_identity (ret x).
Proof. done. Qed.

Lemma keeps_get : keeps_identity get.
Proof. done. Qed.

Lemma keeps_panic {A} : keeps_identity (@panic A).
Proof. done. Qed.

Lemma keeps_set_Choices cs : keeps_identity (modify (set_Choices cs)).
Proof. done. Qed.

Lemma keeps_set_Choices_fun f :
  keeps_identity (modify (fun a => set_Choices (f a) a)).
Proof. done. Qed.

Lemma keeps_set_Usage u : keeps_identity (modify (set_Usage u)).
Proof. done. Qed.

Lemma keeps_bind {A B} (m : M A) (k : A -> M B) :
  keeps_identity m -> (forall x, keeps_identity (k x)) -> keeps_identity (bind m k).
Proof.
  intros Hm Hk a. unfold bind. specialize (Hm a).
  destruct (m a) as [x a1|a1]; simpl in *; [|done].
  by rewrite Hk.
Qed.

Lemma keeps_if {A} (b : bool) (m1 m2 : M A) :
  keeps_identity m1 -> keeps_identity m2 -> keeps_identity (if b then m1 else m2).
Proof. by destruct b. Qed.

Lemma keeps_range {A} (l : list A) (body : A -> M unit) :
  (forall x, keeps_identity (body x)) -> keeps_identity (range l body).
Proof.
  intros Hbody. induction l as [|x l IH]; simpl.
  - apply keeps_ret.
  - apply keeps_bind; auto.
Qed.

Create HintDb keeps.
#[local] Hint Resolve keeps_ret keeps_get keeps_panic keeps_set_Choices
  keeps_set_Choices_fun keeps_set_Usage keeps_if keeps_range : keeps.
#[local] Hint Extern 2 (keeps_identity (bind _ _)) =>
  apply keeps_bind; [|intros ?] : keeps.
#[local] Hint Extern 3 (keeps_identity (match ?x with _ => _ end)) =>
  destruct x : keeps.

Lemma keeps_choice_at idx : keeps_identity (choice_at idx).
Proof. unfold choice_at. auto 10 with keeps. Qed.
#[local] Hint Resolve keeps_choice_at : keeps.

Lemma keeps_update_choice idx f : keeps_identity (update_choice idx f).
Proof. unfold update_choice. auto 10 with keeps. Qed.
#[local] Hint Resolve keeps_update_choice : keeps.

Lemma keeps_update_tool_call idx j f : keeps_identity (update_tool_call idx j f).
Proof. unfold update_tool_call. auto 10 with keeps. Qed.
#[local] Hint Resolve keeps_update_tool_call : keeps.

Lemma keeps_pad_loop fuel idx : keeps_identity (pad_loop fuel idx).
Proof. induction fuel as [|fuel IH]; simpl; auto 10 with keeps. Qed.
#[local] Hint Resolve keeps_pad_loop : keeps.

Lemma keeps_merge_tool_call idx d : keeps_identity (merge_tool_call idx d).
Proof. unfold merge_tool_call. auto 20 with keeps. Qed.
#[local] Hint Resolve keeps_merge_tool_call : keeps.

Lemma keeps_merge_choice choice : keeps_identity (merge_choice choice).
Proof. unfold merge_choice, ensure_enough_choices. auto 20 with keeps. Qed.
#[local] Hint Resolve keeps_merge_choice : keeps.

(** Once the ID is set, [AddChunk] leaves the four fields alone, whether
    it returns or panics. *)
Lemma AddChunk_keeps_identity chunk a :
  acc_ID a ≠ "" -> identity (state_of (AddChunk chunk a)) = identity a.
Proof.
  intros Hid. unfold AddChunk.
  rewrite (bind_Returned get _ a a a) by done.
  rewrite bool_decide_false by done. simpl.
  match goal with
  | |- identity (state_of (?m a)) = _ =>
      assert (keeps_identity m) as H by auto 20 with keeps; apply H
  end.
Qed.

(** The first chunk with an ID sets them. *)
Lemma AddChunk_sets_identity chunk a :
  acc_ID a = "" -> chunk_ID chunk ≠ "" ->
  identity (state_of (AddChunk chunk a)) =
  (chunk_ID chunk, chunk_Object chunk, chunk_Created chunk, chunk_Model chunk).
Proof.
  intros Hid Hc. unfold AddChunk.
  rewrite (bind_Returned get _ a a a) by done.
  rewrite bool_decide_true by done. unfold nonempty.
  rewrite bool_decide_false by done. simpl.
  match goal with
  | |- identity (state_of (bind ?i ?k a)) = _ => set (init := i); set (rest := k)
  end.
  assert (forall x, keeps_identity (rest x)) as Hrest
    by (intros ?; subst rest; cbv beta; auto 20 with keeps).
  assert (exists a1, init a = Returned tt a1 /\ identity a1 =
    (chunk_ID chunk, chunk_Object chunk, chunk_Created chunk, chunk_Model chunk))
    as (a1 & Hinit & Ha1).
  { subst init. unfold bind, modify. destruct (0 <? _); eauto. }
  rewrite (bind_Returned init _ a tt a1) by done.
  by rewrite Hrest.
Qed.

(** A chunk without an ID keeps an unset ID unset. *)
Lemma AddChunk_keeps_identity_no_id chunk a :
  chunk_ID chunk = "" -> identity (state_of (AddChunk chunk a)) = identity a.
Proof.
  intros Hid. unfold AddChunk.
  rewrite (bind_Returned get _ a a a) by done.
  unfold nonempty. rewrite (bool_decide_true (chunk_ID chunk = "")) by done.
  rewrite andb_false_r.
  match goal with
  | |- identity (state_of (?m a)) = _ =>
      assert (keeps_identity m) as H by auto 20 with keeps; apply H
  end.
Qed.

(** ** What one choice of a chunk does to the accumulator *)

Lemma len_nonneg {A} (l : list A) : 0 <= len l.
Proof. unfold len. lia. Qed.

Lemma length_pad cs idx :
  length (pad cs idx) = (length cs + Z.to_nat (idx + 1 - len cs))%nat.
Proof. unfold pad. by rewrite length_app, length_map, length_seq. Qed.

(** On exit of the padding loop its condition is false. *)
Lemma pad_in_range cs idx : idx < len (pad cs idx).
Proof. unfold len. rewrite length_pad. unfold len. lia. Qed.

Lemma pad_noop cs idx : idx < len cs -> pad cs idx = cs.
Proof.
  unfold pad. intros H.
  replace (Z.to_nat (idx + 1 - len cs)) with 0%nat by lia.
  simpl. by rewrite app_nil_r.
Qed.

Lemma pad_lookup_old cs idx k :
  (k < length cs)%nat -> pad cs idx !! k = cs !! k.
Proof. intros H. unfold pad. by rewrite lookup_app_l. Qed.

Lemma pad_lookup_new cs idx k :
  (length cs <= k)%nat -> Z.of_nat k <= idx ->
  pad cs idx !! k = Some (fresh_choice (Z.of_nat k)).
Proof.
  intros H1 H2. unfold pad. rewrite lookup_app_r by done.
  rewrite list_lookup_fmap, lookup_seq_lt by (unfold len; lia).
  simpl. do 2 f_equal. lia.
Qed.

Lemma pad_loop_spec idx fuel a :
  fuel = Z.to_nat (idx + 1 - len (acc_Choices a)) ->
  pad_loop fuel idx a = Returned tt (set_Choices (pad (acc_Choices a) idx) a).
Proof.
  revert a. induction fuel as [|fuel IH]; intros [i o c m cs u] Hfuel;
    simpl in Hfuel.
  - simpl. unfold ret, pad, set_Choices. simpl. rewrite <- Hfuel. simpl.
    by rewrite app_nil_r.
  - simpl. unfold bind at 1. unfold get. simpl.
    assert ((len cs <=? idx) = true) as -> by lia.
    unfold bind, modify. rewrite IH.
    + f_equal. unfold set_Choices, pad. simpl. f_equal.
      rewrite <- Hfuel, length_app. simpl.
      rewrite <- app_assoc. f_equal.
      replace (Z.to_nat (idx + 1 - len (cs ++ [fresh_choice (len cs)]))) with fuel.
      * simpl. unfold len. f_equal. by rewrite Nat.add_1_r.
      * unfold len in *. rewrite length_app. simpl. lia.
    + simpl. unfold len in *. rewrite length_app. simpl. lia.
Qed.

Lemma ensure_enough_choices_spec idx a :
  ensure_enough_choices idx a = Returned tt (set_Choices (pad (acc_Choices a) idx) a).
Proof.
  unfold ensure_enough_choices. rewrite (bind_Returned get _ a a a) by done.
  by apply pad_loop_spec.
Qed.

Lemma find_tool_call_spec i tcs id :
  0 <= i ->
  (find_tool_call i tcs id = -1 /\ Forall (fun t => tc_ID t ≠ id) tcs)
  \/ (exists k t, find_tool_call i tcs id = i + Z.of_nat k
                  /\ tcs !! k = Some t /\ tc_ID t = id
                  /\ Forall (fun t => tc_ID t ≠ id) (take k tcs)).
Proof.
  revert i. induction tcs as [|t tcs IH]; intros i Hi; simpl.
  - left. by split.
  - case_bool_decide as Ht.
    + right. exists 0%nat, t. repeat split; [lia|done|]. simpl. constructor.
    + destruct (IH (i + 1)) as [[-> Hall]|(k & t' & -> & Hk & Hid & Hall)]; [lia|..].
      * left. split; [done|]. by constructor.
      * right. exists (S k), t'. repeat split; [lia|done..|]. simpl. by constructor.
Qed.

Lemma insert_as_alter {A} (l : list A) k x (f : A -> A) :
  l !! k = Some x -> <[k := f x]> l = alter f k l.
Proof.
  intros H. apply list_eq. intros i. destruct (decide (i = k)) as [->|].
  - rewrite list_lookup_insert_eq by (by eapply lookup_lt_Some).
    by rewrite list_lookup_alter_eq, H.
  - by rewrite list_lookup_insert_ne, list_lookup_alter_ne.
Qed.

Section One_slot.

Variables (a0 : ResponsesStreamAccumulator) (idx : Z).
Hypothesis Hidx : 0 <= idx.
Hypothesis Hrange : idx < len (acc_Choices a0).

Let n := Z.to_nat idx.

Lemma with_choice_id c : acc_Choices a0 !! n = Some c -> with_choice a0 n c = a0.
Proof.
  intros H. unfold with_choice. rewrite list_insert_id by done. by destruct a0.
Qed.

Lemma with_choice_twice c c' :
  with_choice (with_choice a0 n c) n c' = with_choice a0 n c'.
Proof.
  unfold with_choice, set_Choices. simpl. by rewrite list_insert_insert_eq.
Qed.

Lemma choice_at_with c :
  choice_at idx (with_choice a0 n c) = Returned c (with_choice a0 n c).
Proof.
  unfold choice_at. rewrite bind_Returned with (x := with_choice a0 n c)
    (a' := with_choice a0 n c) by done.
  assert ((idx <? 0) = false) as -> by lia.
  simpl. fold n. rewrite list_lookup_insert_eq; [done|]. unfold len in *. lia.
Qed.

Lemma update_choice_with f c :
  update_choice idx f (with_choice a0 n c) = Returned tt (with_choice a0 n (f c)).
Proof.
  unfold update_choice. rewrite bind_Returned with (x := c)
    (a' := with_choice a0 n c) by apply choice_at_with.
  unfold modify. fold n. f_equal.
  change (with_choice (with_choice a0 n c) n (f c) = with_choice a0 n (f c)).
  apply with_choice_twice.
Qed.

Lemma update_tool_call_with j f c t :
  0 <= j ->
  default [] (choice_ToolCalls c) !! Z.to_nat j = Some t ->
  update_tool_call idx j f (with_choice a0 n c) =
  Returned tt (with_choice a0 n
    (set_ToolCalls (Some (<[Z.to_nat j := f t]> (default [] (choice_ToolCalls c)))) c)).
Proof.
  intros Hj Ht. unfold update_tool_call.
  rewrite bind_Returned with (x := c) (a' := with_choice a0 n c)
    by apply choice_at_with.
  assert ((j <? 0) = false) as -> by lia.
  rewrite Ht. apply update_choice_with.
Qed.

Lemma merge_tool_call_with d c :
  merge_tool_call idx d (with_choice a0 n c) =
  Returned tt (with_choice a0 n (merged_tool_call d c)).
Proof.
  unfold merge_tool_call.
  rewrite bind_Returned with (x := c) (a' := with_choice a0 n c)
    by apply choice_at_with.
  set (c1 := set_ToolCalls (Some (default [] (choice_ToolCalls c))) c).
  set (tcs := default [] (choice_ToolCalls c)).
  match goal with
  | |- bind ?m _ _ = _ =>
      assert (m (with_choice a0 n c) = Returned tt (with_choice a0 n c1)) as Hinit
  end.
  { subst c1. destruct c as [i m f [l|]]; simpl.
    - done.
    - by rewrite update_choice_with. }
  rewrite bind_Returned with (x := tt) (a' := with_choice a0 n c1) by done.
  rewrite bind_Returned with (x := c1) (a' := with_choice a0 n c1)
    by apply choice_at_with.
  unfold merged_tool_call, merged_tool_calls. simpl. fold tcs.
  destruct (find_tool_call_spec 0 tcs (tc_ID d)) as
    [[-> _]|(k & t & -> & Hk & _ & _)]; [lia|..].
  - simpl.
    rewrite bind_Returned with (x := c1) (a' := with_choice a0 n c1)
      by apply choice_at_with.
    by rewrite update_choice_with.
  - assert ((0 + Z.of_nat k =? -1) = false) as -> by (apply Z.eqb_neq; lia).
    replace (Z.to_nat (0 + Z.of_nat k)) with k by lia.
    assert (forall (b : bool) g c' t',
      choice_ToolCalls c' = Some (<[k := t']> tcs) ->
      (when b then update_tool_call idx (0 + Z.of_nat k) g)%go (with_choice a0 n c') =
      Returned tt (with_choice a0 n
        (set_ToolCalls (Some (<[k := if b then g t' else t']> tcs)) c'))) as Hstep.
    { intros [|] g c' t' Hc'.
      - erewrite update_tool_call_with; [|lia|].
        + rewrite Hc'. simpl. replace (Z.to_nat (0 + Z.of_nat k)) with k by lia.
          by rewrite list_insert_insert_eq.
        + rewrite Hc'. simpl. replace (Z.to_nat (0 + Z.of_nat k)) with k by lia.
          apply list_lookup_insert_eq. by eapply lookup_lt_Some.
      - unfold ret. do 2 f_equal. destruct c'; simpl in *. by subst. }
    assert (choice_ToolCalls c1 = Some (<[k := t]> tcs)) as Hc1.
    { subst c1. simpl. by rewrite list_insert_id. }
    set (t1 := if nonempty (tc_Type d) then set_Type (tc_Type d) t else t).
    set (t2 := if nonempty (fn_Name (tc_Function d))
               then set_Name (fn_Name (tc_Function d)) t1 else t1).
    erewrite bind_Returned; [|by apply (Hstep _ _ c1 t)].
    erewrite bind_Returned; [|by apply (Hstep _ _ _ t1)].
    rewrite (Hstep _ _ _ t2) by done. do 2 f_equal.
    subst c1. unfold set_ToolCalls. simpl. do 2 f_equal.
    by apply (insert_as_alter tcs k t (updated_tool_call d)).
Qed.

Lemma range_merge_tool_call_with ds c :
  range ds (merge_tool_call idx) (with_choice a0 n c) =
  Returned tt (with_choice a0 n (fold_left (fun c t => merged_tool_call t c) ds c)).
Proof.
  revert c. induction ds as [|d ds IH]; intros c; simpl; [done|].
  rewrite bind_Returned with (x := tt) (a' := with_choice a0 n (merged_tool_call d c))
    by apply merge_tool_call_with.
  apply IH.
Qed.

End One_slot.

Lemma merge_choice_spec choice a :
  0 <= sc_Index choice ->
  merge_choice choice a =
  Returned tt (set_Choices (merged_choices (acc_Choices a) choice) a).
Proof.
  intros Hidx. unfold merge_choice.
  set (idx := sc_Index choice) in *. set (d := sc_Delta choice).
  set (a1 := set_Choices (pad (acc_Choices a) idx) a).
  rewrite bind_Returned with (x := tt) (a' := a1)
    by apply ensure_enough_choices_spec.
  assert (idx < len (acc_Choices a1)) as Hrange by apply pad_in_range.
  destruct (lookup_lt_is_Some_2 (acc_Choices a1) (Z.to_nat idx)) as [c Hc];
    [unfold len in Hrange; lia|].
  pose proof (update_choice_with a1 idx Hidx Hrange) as Hupd.
  pose proof (choice_at_with a1 idx Hidx Hrange) as Hat.
  pose proof (range_merge_tool_call_with a1 idx Hidx Hrange) as Hcalls.
  set (n := Z.to_nat idx) in *.
  replace (set_Choices (merged_choices (acc_Choices a) choice) a)
    with (with_choice a1 n (merged_choice choice c)).
  2:{ unfold with_choice, merged_choices. fold idx n.
      rewrite (insert_as_alter _ _ _ _ Hc). by destruct a. }
  rewrite <- (with_choice_id a1 idx Hrange c Hc) at 1. fold n.
  unfold merged_choice. fold d.
  set (c1 := if nonempty (delta_Role d) then _ else c).
  set (c2 := if nonempty (delta_Content d) then _ else c1).
  set (c3 := fold_left _ _ c2).
  rewrite bind_Returned with (x := tt) (a' := with_choice a1 n c1).
  2:{ subst c1. destruct (nonempty (delta_Role d)); [apply Hupd|done]. }
  rewrite bind_Returned with (x := tt) (a' := with_choice a1 n c2).
  2:{ subst c2. destruct (nonempty (delta_Content d)); [|done].
      rewrite bind_Returned with (x := c1) (a' := with_choice a1 n c1) by apply Hat.
      apply Hupd. }
  rewrite bind_Returned with (x := tt) (a' := with_choice a1 n c3).
  2:{ subst c3. destruct (delta_ToolCalls d) as [|t ts] eqn:Hts; [done|].
      assert ((0 <? len (t :: ts)) = true) as ->
        by (apply Z.ltb_lt; unfold len; cbn [length]; lia).
      apply Hcalls. }
  destruct (nonempty (sc_FinishReason choice)); [apply Hupd|done].
Qed.

Lemma range_merge_choice choices a :
  Forall (fun choice => 0 <= sc_Index choice) choices ->
  range choices merge_choice a =
  Returned tt (set_Choices (fold_left merged_choices choices (acc_Choices a)) a).
Proof.
  intros Hall. revert a. induction Hall as [|choice choices Hidx _ IH]; intros a.
  - simpl. unfold ret. by destruct a.
  - simpl. rewrite bind_Returned with (x := tt)
      (a' := set_Choices (merged_choices (acc_Choices a) choice) a)
      by by apply merge_choice_spec.
    rewrite IH. by destruct a.
Qed.

(** ** What [AddChunk] computes when no index is negative *)

Lemma AddChunk_spec chunk a :
  Forall (fun choice => 0 <= sc_Index choice) (chunk_Choices chunk) ->
  AddChunk chunk a = Returned tt (added chunk a).
Proof.
  intros Hall. unfold AddChunk, added.
  rewrite (bind_Returned get _ a a a) by done.
  set (a1 := initialised chunk a).
  rewrite bind_Returned with (x := tt) (a' := a1).
  2:{ subst a1. unfold initialised.
      destruct (bool_decide (acc_ID a = "") && nonempty (chunk_ID chunk)); [|done].
      unfold bind, modify. by destruct (0 <? len (chunk_Choices chunk)). }
  set (a2 := if chunk_Usage chunk is Some _ then _ else a1).
  rewrite bind_Returned with (x := tt) (a' := a2).
  2:{ subst a2. by destruct (chunk_Usage chunk). }
  rewrite (bind_Returned get _ a2 a2 a2) by done.
  set (a3 := if (len (acc_Choices a2) =? 0) && _ then _ else a2).
  rewrite bind_Returned with (x := tt) (a' := a3).
  2:{ subst a3. by destruct ((len (acc_Choices a2) =? 0) && _). }
  by apply range_merge_choice.
Qed.

Lemma pad_fresh_0 idx : 0 <= idx -> pad [fresh_choice 0] idx = pad [] idx.
Proof.
  intros H. unfold pad, len. cbn [length app].
  replace (Z.to_nat (idx + 1 - Z.of_nat 0))
    with (S (Z.to_nat (idx + 1 - Z.of_nat 1))) by lia.
  done.
Qed.

(** A chunk as the decoder builds it for a choice: no ID, no usage, one
    choice. *)
Lemma AddChunk_one_choice idx d a :
  0 <= idx ->
  AddChunk (one_choice idx d) a =
  Returned tt (set_Choices (merged_choices (acc_Choices a) (mkStreamChoice idx d "")) a).
Proof.
  intros Hidx. rewrite AddChunk_spec by (by repeat constructor).
  f_equal. unfold added, initialised. simpl. rewrite andb_false_r.
  unfold len at 2. simpl. rewrite andb_true_r.
  destruct a as [i o c m cs u]. simpl.
  destruct cs as [|c0 cs]; simpl; [|done].
  unfold set_Choices, merged_choices. simpl. by rewrite pad_fresh_0.
Qed.

(** ** The slot an event refers to *)

Lemma string_app_empty_r (s : string) : s +:+ "" = s.
Proof.
  induction s as [|ch s IH]; [done|].
  change (String ch s +:+ "") with (String ch (s +:+ "")). by rewrite IH.
Qed.

Lemma string_app_assoc (s1 s2 s3 : string) : (s1 +:+ s2) +:+ s3 = s1 +:+ (s2 +:+ s3).
Proof.
  induction s1 as [|ch s1 IH]; [done|].
  change (String ch ((s1 +:+ s2) +:+ s3) = String ch (s1 +:+ (s2 +:+ s3))).
  by rewrite IH.
Qed.

Lemma pad_lookup_idx cs idx :
  0 <= idx ->
  pad cs idx !! Z.to_nat idx = Some (default (fresh_choice idx) (cs !! Z.to_nat idx)).
Proof.
  intros H. destruct (decide (Z.to_nat idx < length cs)%nat) as [Hlt|Hge].
  - rewrite pad_lookup_old by done.
    destruct (lookup_lt_is_Some_2 cs _ Hlt) as [c ->]. done.
  - rewrite pad_lookup_new by lia.
    rewrite (lookup_ge_None_2 cs) by lia. simpl. do 2 f_equal. lia.
Qed.

Lemma merged_choices_lookup_idx cs choice :
  0 <= sc_Index choice ->
  merged_choices cs choice !! Z.to_nat (sc_Index choice) =
  Some (merged_choice choice
          (default (fresh_choice (sc_Index choice)) (cs !! Z.to_nat (sc_Index choice)))).
Proof.
  intros H. unfold merged_choices.
  by rewrite list_lookup_alter_eq, pad_lookup_idx.
Qed.

Lemma merged_choices_lookup_ne cs choice k :
  k ≠ Z.to_nat (sc_Index choice) ->
  merged_choices cs choice !! k = pad cs (sc_Index choice) !! k.
Proof. intros H. unfold merged_choices. by rewrite list_lookup_alter_ne. Qed.

Lemma length_merged_choices cs choice :
  length (merged_choices cs choice) = length (pad cs (sc_Index choice)).
Proof. unfold merged_choices. apply length_alter. Qed.

(** *** Tool calls *)

Lemma find_tool_call_ids i l1 l2 id :
  map tc_ID l1 = map tc_ID l2 -> find_tool_call i l1 id = find_tool_call i l2 id.
Proof.
  revert i l2. induction l1 as [|t l1 IH]; intros i [|t' l2] H; simplify_eq/=; [done|].
  rewrite H. case_bool_decide; [done|]. by apply IH.
Qed.

Lemma find_tool_call_app i l1 l2 id :
  Forall (fun t => tc_ID t ≠ id) l1 ->
  find_tool_call i (l1 ++ l2) id = find_tool_call (i + len l1) l2 id.
Proof.
  intros H. revert i. induction H as [|t l1 Ht _ IH]; intros i; simpl.
  - f_equal. unfold len. simpl. lia.
  - rewrite bool_decide_false by done. rewrite IH. f_equal.
    unfold len. cbn [length]. lia.
Qed.

Lemma tc_ID_updated d t : tc_ID (updated_tool_call d t) = tc_ID t.
Proof.
  unfold updated_tool_call.
  by destruct (nonempty (tc_Type d)), (nonempty (fn_Name (tc_Function d))),
    (nonempty (fn_Arguments (tc_Function d))).
Qed.

Lemma map_tc_ID_alter d k tcs :
  map tc_ID (alter (updated_tool_call d) k tcs) = map tc_ID tcs.
Proof.
  revert k. induction tcs as [|t tcs IH]; intros [|k]; simpl; [done..| |].
  - by rewrite tc_ID_updated.
  - f_equal. apply IH.
Qed.

(** After the merge, the slot of the delta's identity holds the matched
    tool call with the guarded assignments applied, or the appended copy of
    the delta when nothing matched. *)
Lemma slot_merged tcs d :
  slot (merged_tool_calls tcs d) (tc_ID d) =
  Some (match slot tcs (tc_ID d) with
        | Some t => updated_tool_call d t
        | None => new_tool_call d
        end).
Proof.
  unfold slot, merged_tool_calls.
  destruct (find_tool_call_spec 0 tcs (tc_ID d)) as
    [[Hj Hall]|(k & t & Hj & Hk & _ & _)]; [lia|..]; rewrite Hj.
  - simpl. rewrite find_tool_call_app by done. simpl.
    rewrite bool_decide_true by done.
    assert ((0 + len tcs =? -1) = false) as ->
      by (apply Z.eqb_neq; pose proof (len_nonneg tcs); lia).
    replace (Z.to_nat (0 + len tcs)) with (length tcs + 0)%nat by (unfold len; lia).
    by rewrite lookup_app_r, Nat.add_0_r, Nat.sub_diag by lia.
  - assert ((0 + Z.of_nat k =? -1) = false) as -> by (apply Z.eqb_neq; lia).
    rewrite (find_tool_call_ids _ _ tcs) by apply map_tc_ID_alter.
    rewrite Hj.
    assert ((0 + Z.of_nat k =? -1) = false) as -> by (apply Z.eqb_neq; lia).
    replace (Z.to_nat (0 + Z.of_nat k)) with k by lia.
    by rewrite list_lookup_alter_eq, Hk.
Qed.

(** What a chunk with one tool call does: it returns, and the tool calls of
    the choice are the merged ones. *)
Lemma AddChunk_tool_call idx d a :
  0 <= idx ->
  exists a', AddChunk (one_choice idx (tool_call_delta d)) a = Returned tt a'
    /\ tool_calls_at a' (Z.to_nat idx) = merged_tool_calls (tool_calls_at a (Z.to_nat idx)) d.
Proof.
  intros Hidx. eexists. split; [by apply AddChunk_one_choice|].
  unfold tool_calls_at. simpl.
  rewrite (merged_choices_lookup_idx _ (mkStreamChoice idx (tool_call_delta d) "")) by done.
  simpl. by destruct (acc_Choices a !! Z.to_nat idx).
Qed.

Lemma AddChunk_content idx fragment a :
  0 <= idx ->
  exists a', AddChunk (ContentDelta idx fragment) a = Returned tt a'
    /\ content_at a' (Z.to_nat idx) = content_at a (Z.to_nat idx) +:+ fragment.
Proof.
  intros Hidx. eexists. split; [by apply AddChunk_one_choice|].
  unfold content_at. simpl.
  rewrite (merged_choices_lookup_idx _ (mkStreamChoice idx (mkDelta "" fragment []) ""))
    by done.
  unfold merged_choice, nonempty. simpl.
  case_bool_decide as Hf; simpl.
  - subst fragment. destruct (acc_Choices a !! Z.to_nat idx); simpl.
    + by rewrite string_app_empty_r.
    + done.
  - by destruct (acc_Choices a !! Z.to_nat idx).
Qed.

(** ** Sequences of chunks *)

Lemma feed_cons chunk chunks a :
  feed (chunk :: chunks) a = bind (AddChunk chunk) (fun _ => feed chunks) a.
Proof. done. Qed.

Lemma feed_keeps_identity chunks a :
  acc_ID a ≠ "" -> identity (state_of (feed chunks a)) = identity a.
Proof.
  revert a. induction chunks as [|chunk chunks IH]; intros a Hid; [done|].
  rewrite feed_cons. unfold bind.
  pose proof (AddChunk_keeps_identity chunk a Hid) as Hstep.
  destruct (AddChunk chunk a) as [[] a1|a1]; simpl in Hstep; [|done].
  rewrite IH; [done|].
  assert (acc_ID a1 = acc_ID a) as -> by (unfold identity in Hstep; congruence).
  done.
Qed.

Lemma feed_app_state l1 l2 a :
  state_of (feed (l1 ++ l2) a) =
  if returned (feed l1 a) then state_of (feed l2 (state_of (feed l1 a)))
  else state_of (feed l1 a).
Proof.
  unfold feed. rewrite range_app. unfold bind.
  by destruct (range l1 AddChunk a) as [[] a1|a1].
Qed.

Lemma feed_content idx fragments a :
  0 <= idx ->
  exists a', feed (map (ContentDelta idx) fragments) a = Returned tt a'
    /\ content_at a' (Z.to_nat idx) =
       content_at a (Z.to_nat idx) +:+ foldr String.append "" fragments.
Proof.
  intros Hidx. revert a. induction fragments as [|f fs IH]; intros a.
  - exists a. split; [done|]. simpl. by rewrite string_app_empty_r.
  - destruct (AddChunk_content idx f a Hidx) as (a1 & Hadd & Hc1).
    destruct (IH a1) as (a' & Hfeed & Hc').
    exists a'. split.
    + simpl map. rewrite feed_cons. by rewrite bind_Returned with (x := tt) (a' := a1).
    + rewrite Hc', Hc1. simpl. by rewrite string_app_assoc.
Qed.

(** ** The materializer *)

Lemma ToResponse_spec a :
  ToResponse a =
  Returned (mkResponse (acc_ID a) (acc_Object a) (acc_Created a) (acc_Model a)
              (map materialized_choice (acc_Choices a)) (acc_Usage a) "") a.
Proof.
  unfold ToResponse, bind, get, ret. do 2 f_equal.
  apply map_ext. intros [i m f [[|t ts]|]]; done.
Qed.

(** ** Padding of the choice slice *)

Lemma pad_lookup cs idx k :
  pad cs idx !! k =
  if decide (k < length cs)%nat then cs !! k
  else if decide (Z.of_nat k <= idx) then Some (fresh_choice (Z.of_nat k))
  else None.
Proof.
  repeat case_decide.
  - by apply pad_lookup_old.
  - apply pad_lookup_new; lia.
  - apply lookup_ge_None_2. rewrite length_pad. unfold len. lia.
Qed.

Lemma fold_merged_choices_padded choices cs :
  Forall (fun choice => 0 <= sc_Index choice) choices ->
  padded choices cs (fold_left merged_choices choices cs).
Proof.
  intros Hall. revert cs. induction Hall as [|choice choices Hidx _ IH]; intros cs.
  - simpl. repeat split; [done|constructor|by left|].
    intros k _. case_decide; [done|]. apply lookup_ge_None_2. lia.
  - simpl. set (cs1 := merged_choices cs choice).
    destruct (IH cs1) as (Hlen & Hin & Hmin & Hlook).
    set (cs' := fold_left merged_choices choices cs1) in *.
    assert (length cs1 = (length cs + Z.to_nat (sc_Index choice + 1 - len cs))%nat)
      as Hlen1 by (subst cs1; by rewrite length_merged_choices, length_pad).
    unfold padded. unfold len in *. repeat split.
    + lia.
    + constructor; [lia|done].
    + intros k Hk. destruct (Hmin k Hk) as [Hk1|Hex].
      * destruct (decide (k < length cs)%nat); [by left|].
        right. constructor. lia.
      * right. by constructor.
    + intros k Hk. inversion_clear Hk as [|?? Hne Hrest].
      rewrite (Hlook k Hrest). subst cs1.
      case_decide as Hk1.
      * rewrite merged_choices_lookup_ne by lia. rewrite pad_lookup.
        repeat case_decide; try done; try lia.
      * repeat case_decide; try done; try lia.
Qed.

Lemma AddChunk_padded chunk a :
  acc_ID a ≠ "" \/ chunk_ID chunk = "" ->
  Forall (fun choice => 0 <= sc_Index choice) (chunk_Choices chunk) ->
  exists a', AddChunk chunk a = Returned tt a'
    /\ padded (chunk_Choices chunk) (acc_Choices a) (acc_Choices a').
Proof.
  intros Hinit Hall. eexists. split; [by apply AddChunk_spec|].
  unfold added.
  assert (initialised chunk a = a) as ->.
  { unfold initialised, nonempty.
    destruct Hinit as [H|H]; [by rewrite (bool_decide_false _ H)|].
    by rewrite (bool_decide_true _ H), andb_false_r. }
  set (a2 := if chunk_Usage chunk is Some _ then _ else a).
  assert (acc_Choices a2 = acc_Choices a) as Ha2 by (subst a2; by destruct (chunk_Usage chunk)).
  unfold set_Choices at 1. cbn [acc_Choices].
  set (cond := (len (acc_Choices a2) =? 0) && (0 <? len (chunk_Choices chunk))).
  assert (acc_Choices (if cond then set_Choices [fresh_choice 0] a2 else a2) =
          if cond then [fresh_choice 0] else acc_Choices a) as ->
    by (by destruct cond).
  subst cond. rewrite Ha2.
  destruct (chunk_Choices chunk) as [|choice choices] eqn:Hchoices.
  { rewrite andb_false_r. by apply fold_merged_choices_padded. }
  destruct (acc_Choices a) as [|c cs] eqn:Hcs.
  2:{ simpl "&&". by apply fold_merged_choices_padded. }
  assert ((0 <? len (choice :: choices)) = true) as ->
    by (apply Z.ltb_lt; unfold len; cbn [length]; lia).
  change (len (@nil ResponseChoice) =? 0) with true. cbn [andb].
  destruct (fold_merged_choices_padded (choice :: choices) [fresh_choice 0] Hall)
    as (Hlen & Hin & Hmin & Hlook).
  set (cs' := fold_left merged_choices (choice :: choices) [fresh_choice 0]) in *.
  simpl in Hlen. repeat split.
  - simpl. lia.
  - done.
  - intros k Hk. right. destruct (Hmin k Hk) as [Hk0|Hex]; [|done].
    simpl in Hk0. constructor. inversion_clear Hall. lia.
  - intros k Hk. rewrite (Hlook k Hk). simpl.
    repeat case_decide; try done; try lia.
    by replace k with 0%nat by lia.
Qed.

(** ** What the decoder builds for the events of the accumulator *)

Lemma decode_output_text_delta (eventData : gmap string JValue) :
  eventData !! "type" = Some (JString "response.output_text.delta") ->
  decode_event eventData = (ContentDelta 0 (string_of (eventData !! "delta")), false).
Proof. intros H. unfold decode_event. by rewrite H. Qed.

(** The delta event and the done event of function-call arguments decode
    to the same chunk: a tool call with the item's identity and the
    payload as its arguments. *)
Lemma decode_function_call_arguments (eventData : gmap string JValue)
    (kind field item payload : string) (index : Q) :
  (kind = "response.function_call_arguments.delta" /\ field = "delta")
  \/ (kind = "response.function_call_arguments.done" /\ field = "arguments") ->
  eventData !! "type" = Some (JString kind) ->
  eventData !! field = Some (JString payload) ->
  eventData !! "output_index" = Some (JNumber index) ->
  eventData !! "item_id" = Some (JString item) ->
  decode_event eventData = (ToolCallArguments (int_of_float64 index) item payload, false).
Proof.
  intros [[-> ->]|[-> ->]] Htype Hpayload Hindex Hitem;
    unfold decode_event; by rewrite Htype, Hpayload, Hindex, Hitem.
Qed.

Lemma decode_choices_have_no_id (eventData : gmap string JValue) :
  chunk_Choices (decode_event eventData).1 ≠ [] ->
  chunk_ID (decode_event eventData).1 = "".
Proof.
  unfold decode_event, usage_from, identity_from.
  repeat match goal with
         | |- context [if ?b then _ else _] => destruct b
         | |- context [match ?x with _ => _ end] => destruct x
         end; simpl; congruence.
Qed.

(** * The claims about the accumulator *)

Lemma arguments_after idx item payload a :
  0 <= idx ->
  exists a', AddChunk (ToolCallArguments idx item payload) a = Returned tt a'
    /\ arguments_of <$> slot_at a' (Z.to_nat idx) item =
       Some (if nonempty payload then payload
             else default "" (arguments_of <$> slot_at a (Z.to_nat idx) item)).
Proof.
  intros Hidx. unfold ToolCallArguments.
  set (d := mkToolCall item "" "" (mkFunction "" payload)).
  destruct (AddChunk_tool_call idx d a Hidx) as (a' & Hadd & Hcalls).
  exists a'. split; [done|]. unfold slot_at. rewrite Hcalls.
  change item with (tc_ID d). rewrite slot_merged. simpl. f_equal.
  destruct (slot (tool_calls_at a (Z.to_nat idx)) item) as [t|]; simpl.
  - unfold updated_tool_call, arguments_of. simpl. by destruct (nonempty payload).
  - unfold arguments_of, nonempty. simpl. case_bool_decide; by simplify_eq/=.
Qed.

(** C1, as the code has it. A function-call-arguments event for item [x],
    delta or done alike (both decode to the same chunk), with a non-empty
    payload assigns the payload to the arguments of the slot of [x]; the
    arguments are never concatenated. An empty payload leaves the arguments
    as they were, and a slot that did not exist is created with the
    payload. Feeding the two fragments and then the full payload of the
    example leaves exactly the full payload. *)
Theorem C1_arguments_are_assigned (a : ResponsesStreamAccumulator) (idx : Z)
    (x payload : string) :
  0 <= idx ->
  (exists a', AddChunk (ToolCallArguments idx x payload) a = Returned tt a'
     /\ arguments_of <$> slot_at a' (Z.to_nat idx) x =
        Some (if nonempty payload then payload
              else default "" (arguments_of <$> slot_at a (Z.to_nat idx) x)))
  /\ arguments_of <$>
       slot_at (state_of (feed [ToolCallArguments 0 "x" fragment_1;
                                ToolCallArguments 0 "x" fragment_2;
                                ToolCallArguments 0 "x" full_arguments]
                               new_accumulator)) 0 "x"
     = Some full_arguments
  /\ (forall (eventData : gmap string JValue) (kind field : string) (index : Q),
        (kind = "response.function_call_arguments.delta" /\ field = "delta")
        \/ (kind = "response.function_call_arguments.done" /\ field = "arguments") ->
        eventData !! "type" = Some (JString kind) ->
        eventData !! field = Some (JString payload) ->
        eventData !! "output_index" = Some (JNumber index) ->
        eventData !! "item_id" = Some (JString x) ->
        decode_event eventData
        = (ToolCallArguments (int_of_float64 index) x payload, false)).
Proof.
  intros Hidx. split; [by apply arguments_after|]. split; [by vm_compute|].
  intros eventData kind field index. apply decode_function_call_arguments.
Qed.

Lemma C1_arguments_are_assigned_witness :
  0 <= 0 /\
  ((exists a', AddChunk (ToolCallArguments 0 "x" fragment_2)
                 (state_of (AddChunk (ToolCallArguments 0 "x" fragment_1) new_accumulator))
               = Returned tt a'
      /\ arguments_of <$> slot_at a' (Z.to_nat 0) "x" =
         Some (if nonempty fragment_2 then fragment_2
               else default "" (arguments_of <$>
                      slot_at (state_of (AddChunk (ToolCallArguments 0 "x" fragment_1)
                                           new_accumulator)) (Z.to_nat 0) "x")))
   /\ arguments_of <$>
        slot_at (state_of (feed [ToolCallArguments 0 "x" fragment_1;
                                 ToolCallArguments 0 "x" fragment_2;
                                 ToolCallArguments 0 "x" full_arguments]
                                new_accumulator)) 0 "x"
      = Some full_arguments
   /\ (forall (eventData : gmap string JValue) (kind field : string) (index : Q),
         (kind = "response.function_call_arguments.delta" /\ field = "delta")
         \/ (kind = "response.function_call_arguments.done" /\ field = "arguments") ->
         eventData !! "type" = Some (JString kind) ->
         eventData !! field = Some (JString fragment_2) ->
         eventData !! "output_index" = Some (JNumber index) ->
         eventData !! "item_id" = Some (JString "x") ->
         decode_event eventData
         = (ToolCallArguments (int_of_float64 index) "x" fragment_2, false))).
Proof.
  split; [lia|].
  apply (C1_arguments_are_assigned
           (state_of (AddChunk (ToolCallArguments 0 "x" fragment_1) new_accumulator))
           0 "x" fragment_2).
  lia.
Defined.

(** C1 fails as stated: after the two delta events the buffer holds the
    second fragment alone, not the concatenation of the two. *)
Lemma C1_delta_does_not_append :
  arguments_of <$>
    slot_at (state_of (feed [ToolCallArguments 0 "x" fragment_1;
                             ToolCallArguments 0 "x" fragment_2]
                            new_accumulator)) 0 "x"
  = Some fragment_2
  /\ fragment_2 ≠ fragment_1 +:+ fragment_2.
Proof. split; [by vm_compute|]. by vm_compute. Qed.

(** ** C2: a negative choice index *)

Lemma choice_at_negative idx a : idx < 0 -> choice_at idx a = Panicked a.
Proof.
  intros H. unfold choice_at. rewrite (bind_Returned get _ a a a) by done.
  by assert ((idx <? 0) = true) as -> by (apply Z.ltb_lt; lia).
Qed.

(** C2 does not hold of the code. The decoder converts any number in
    [output_index] to the choice index, a negative one included; the
    padding loop does not run for it, and the first access to
    [a.Choices[choice.Index]] panics. *)
Theorem C2_negative_index_panics (a : ResponsesStreamAccumulator) (idx : Z)
    (d : ResponseToolCall) :
  idx < 0 ->
  returned (AddChunk (one_choice idx (tool_call_delta d)) a) = false
  /\ decode_event {[ "type" := JString "response.tool_call.created";
                     "output_index" := JNumber (-1 # 1) ]}
     = (one_choice (-1) (tool_call_delta zero_ToolCall), false).
Proof.
  intros Hidx. split; [|by vm_compute].
  unfold AddChunk. rewrite (bind_Returned get _ a a a) by done.
  rewrite andb_false_r. cbn [chunk_Usage one_choice].
  rewrite bind_Returned with (x := tt) (a' := a) by done.
  rewrite bind_Returned with (x := tt) (a' := a) by done.
  rewrite (bind_Returned get _ a a a) by done.
  match goal with
  | |- returned (bind ?m _ a) = _ =>
      destruct (m a) as [[] a1|a1] eqn:Hone;
      [rewrite bind_Returned with (x := tt) (a' := a1) by done
      |by destruct (_ && _)]
  end.
  cbn [chunk_Choices range one_choice]. unfold bind at 1.
  assert (merge_choice (mkStreamChoice idx (tool_call_delta d) "") a1 =
          Panicked (set_Choices (pad (acc_Choices a1) idx) a1)) as ->; [|done].
  unfold merge_choice. cbn [sc_Index sc_Delta sc_FinishReason tool_call_delta
    delta_Role delta_Content delta_ToolCalls].
  rewrite bind_Returned with (x := tt) (a' := set_Choices (pad (acc_Choices a1) idx) a1)
    by apply ensure_enough_choices_spec.
  change (nonempty "") with false. cbv iota.
  rewrite bind_Returned with (x := tt) (a' := set_Choices (pad (acc_Choices a1) idx) a1)
    by done.
  rewrite bind_Returned with (x := tt) (a' := set_Choices (pad (acc_Choices a1) idx) a1)
    by done.
  apply bind_Panicked. change (0 <? len [d]) with true. cbv iota. cbn [range].
  apply bind_Panicked. unfold merge_tool_call.
  apply bind_Panicked. by apply choice_at_negative.
Qed.

Lemma C2_negative_index_panics_witness :
  -1 < 0 /\
  (returned (AddChunk (one_choice (-1) (tool_call_delta zero_ToolCall)) new_accumulator)
   = false
   /\ decode_event {[ "type" := JString "response.tool_call.created";
                      "output_index" := JNumber (-1 # 1) ]}
      = (one_choice (-1) (tool_call_delta zero_ToolCall), false)).
Proof.
  split; [lia|].
  apply (C2_negative_index_panics new_accumulator (-1) zero_ToolCall). lia.
Defined.

(** ** C3: the identity fields *)

(** C3. Once the ID of the accumulator is set (non-empty) after some
    events, whatever chunks follow, returning or panicking, the ID, object,
    created and model fields keep their values, and so do those of the
    materialized response. They were set, all four together, by the first
    chunk that carried a non-empty ID. *)
Theorem C3_identity_first_write_wins (a : ResponsesStreamAccumulator)
    (events more : list ResponseStreamResponse) :
  acc_ID (state_of (feed events a)) ≠ "" ->
  identity (state_of (feed (events ++ more) a)) = identity (state_of (feed events a))
  /\ (exists doc doc',
        ToResponse (state_of (feed events a)) = Returned doc (state_of (feed events a))
        /\ ToResponse (state_of (feed (events ++ more) a))
           = Returned doc' (state_of (feed (events ++ more) a))
        /\ document_identity doc' = document_identity doc)
  /\ (forall a0 chunk,
        acc_ID a0 = "" ->
        identity (state_of (AddChunk chunk a0)) =
        if nonempty (chunk_ID chunk)
        then (chunk_ID chunk, chunk_Object chunk, chunk_Created chunk, chunk_Model chunk)
        else identity a0).
Proof.
  intros Hset.
  assert (identity (state_of (feed (events ++ more) a)) =
          identity (state_of (feed events a))) as Hsame.
  { rewrite feed_app_state. destruct (returned (feed events a)); [|done].
    by apply feed_keeps_identity. }
  split; [done|]. split.
  - do 2 eexists. split; [apply ToResponse_spec|]. split; [apply ToResponse_spec|].
    exact Hsame.
  - intros a0 chunk Ha0. unfold nonempty. case_bool_decide as Hc; simpl.
    + by apply AddChunk_keeps_identity_no_id.
    + by apply AddChunk_sets_identity.
Qed.

Lemma C3_identity_first_write_wins_witness :
  acc_ID (state_of (feed [created_chunk] new_accumulator)) ≠ "" /\
  (identity (state_of (feed ([created_chunk] ++ [ContentDelta 0 "Hi"; completed_chunk])
                         new_accumulator))
   = identity (state_of (feed [created_chunk] new_accumulator))
   /\ (exists doc doc',
         ToResponse (state_of (feed [created_chunk] new_accumulator))
         = Returned doc (state_of (feed [created_chunk] new_accumulator))
         /\ ToResponse (state_of (feed ([created_chunk] ++
                                        [ContentDelta 0 "Hi"; completed_chunk])
                                       new_accumulator))
            = Returned doc' (state_of (feed ([created_chunk] ++
                                             [ContentDelta 0 "Hi"; completed_chunk])
                                            new_accumulator))
         /\ document_identity doc' = document_identity doc)
   /\ (forall a0 chunk,
         acc_ID a0 = "" ->
         identity (state_of (AddChunk chunk a0)) =
         if nonempty (chunk_ID chunk)
         then (chunk_ID chunk, chunk_Object chunk, chunk_Created chunk, chunk_Model chunk)
         else identity a0)).
Proof.
  split; [by vm_compute|].
  apply (C3_identity_first_write_wins new_accumulator [created_chunk]
           [ContentDelta 0 "Hi"; completed_chunk]).
  by vm_compute.
Defined.

(** ** C4: the function name *)

(** C4, as the code has it. A later event for the same slot that carries a
    non-empty function name overwrites the name of the slot; an event with
    an empty name leaves it. The last non-empty write wins. *)
Theorem C4_function_name_last_write_wins (a : ResponsesStreamAccumulator) (idx : Z)
    (d t : ResponseToolCall) :
  0 <= idx ->
  slot_at a (Z.to_nat idx) (tc_ID d) = Some t ->
  exists a', AddChunk (one_choice idx (tool_call_delta d)) a = Returned tt a'
    /\ name_of <$> slot_at a' (Z.to_nat idx) (tc_ID d) =
       Some (if nonempty (name_of d) then name_of d else name_of t).
Proof.
  intros Hidx Ht.
  destruct (AddChunk_tool_call idx d a Hidx) as (a' & Hadd & Hcalls).
  exists a'. split; [done|]. unfold slot_at in *. rewrite Hcalls, slot_merged, Ht.
  simpl. f_equal. unfold updated_tool_call, name_of.
  by destruct (nonempty (tc_Type d)), (nonempty (fn_Name (tc_Function d))),
    (nonempty (fn_Arguments (tc_Function d))).
Qed.

Lemma C4_function_name_last_write_wins_witness :
  0 <= 0 /\
  slot_at (state_of (AddChunk (one_choice 0 (tool_call_delta weather_call))
                       new_accumulator)) (Z.to_nat 0) (tc_ID renamed_call)
    = Some weather_call /\
  (exists a', AddChunk (one_choice 0 (tool_call_delta renamed_call))
                (state_of (AddChunk (one_choice 0 (tool_call_delta weather_call))
                             new_accumulator)) = Returned tt a'
     /\ name_of <$> slot_at a' (Z.to_nat 0) (tc_ID renamed_call) =
        Some (if nonempty (name_of renamed_call) then name_of renamed_call
              else name_of weather_call)).
Proof.
  split; [lia|]. split; [by vm_compute|].
  apply (C4_function_name_last_write_wins
           (state_of (AddChunk (one_choice 0 (tool_call_delta weather_call))
                        new_accumulator)) 0 renamed_call weather_call);
    [lia|by vm_compute].
Defined.

(** C4 fails as stated: the slot of ["x"] has the non-empty name
    ["get_weather"], and a later event for ["x"] with another name changes
    it. *)
Lemma C4_function_name_is_overwritten :
  let a1 := state_of (AddChunk (one_choice 0 (tool_call_delta weather_call))
                        new_accumulator) in
  let a2 := state_of (AddChunk (one_choice 0 (tool_call_delta renamed_call)) a1) in
  name_of <$> slot_at a1 0 "x" = Some "get_weather"
  /\ name_of <$> slot_at a2 0 "x" = Some "get_time".
Proof. by vm_compute. Qed.

(** ** C5: index padding *)

(** C5, as the code has it. When the chunk does not set the ID of the
    accumulator for the first time and no index is negative, the merge
    returns, no slot is dropped, every referenced index is in range, no slot
    is added past the largest referenced index, and every slot no choice
    of the chunk refers to is the old one or, when new, a fresh one with
    its position as index. An event for index 2 on a new accumulator
    leaves three slots, the first two fresh. *)
Theorem C5_index_padding (a : ResponsesStreamAccumulator)
    (chunk : ResponseStreamResponse) :
  acc_ID a ≠ "" \/ chunk_ID chunk = "" ->
  Forall (fun choice => 0 <= sc_Index choice) (chunk_Choices chunk) ->
  (exists a', AddChunk chunk a = Returned tt a'
     /\ padded (chunk_Choices chunk) (acc_Choices a) (acc_Choices a'))
  /\ (forall d, exists c2,
        AddChunk (one_choice 2 d) new_accumulator
        = Returned tt (set_Choices [mkChoice 0 (mkMessage "assistant" "") "" None;
                                    mkChoice 1 (mkMessage "assistant" "") "" None;
                                    c2] new_accumulator)).
Proof.
  intros Hinit Hall. split; [by apply AddChunk_padded|].
  intros d. eexists. by rewrite AddChunk_one_choice.
Qed.

Lemma C5_index_padding_witness :
  (acc_ID new_accumulator ≠ "" \/ chunk_ID (ContentDelta 2 "Hi") = "") /\
  Forall (fun choice => 0 <= sc_Index choice) (chunk_Choices (ContentDelta 2 "Hi")) /\
  ((exists a', AddChunk (ContentDelta 2 "Hi") new_accumulator = Returned tt a'
      /\ padded (chunk_Choices (ContentDelta 2 "Hi")) (acc_Choices new_accumulator)
                (acc_Choices a'))
   /\ (forall d, exists c2,
         AddChunk (one_choice 2 d) new_accumulator
         = Returned tt (set_Choices [mkChoice 0 (mkMessage "assistant" "") "" None;
                                     mkChoice 1 (mkMessage "assistant" "") "" None;
                                     c2] new_accumulator))).
Proof.
  assert (Forall (fun choice => 0 <= sc_Index choice)
            (chunk_Choices (ContentDelta 2 "Hi"))) as Hall
    by (repeat constructor; simpl; lia).
  split; [by right|]. split; [exact Hall|].
  apply (C5_index_padding new_accumulator (ContentDelta 2 "Hi")); [by right|exact Hall].
Defined.

(** C5 fails as stated: the first chunk with an ID re-creates the choice
    slice with one fresh slot per choice of the chunk, so three slots
    become one; and for the index -1 nothing is brought in range, the
    merge panics. *)
Lemma C5_first_id_chunk_truncates :
  let a := state_of (AddChunk (ContentDelta 2 "Hi") new_accumulator) in
  let chunk := mkChunk "resp_1" "response" 1700000000 "gpt-4o"
                 [mkStreamChoice 0 (mkDelta "" "x" []) ""] None in
  length (acc_Choices a) = 3%nat
  /\ AddChunk chunk a
     = Returned tt (mkAcc "resp_1" "response" 1700000000 "gpt-4o"
                      [set_Content "x" (fresh_choice 0)] None)
  /\ AddChunk (one_choice (-1) (tool_call_delta zero_ToolCall)) new_accumulator
     = Panicked (set_Choices [fresh_choice 0] new_accumulator).
Proof. by vm_compute. Qed.

(** ** C6: content *)

(** C6. Content deltas for one choice index append their fragments to the
    content of that choice in arrival order (the decoder builds them for
    index 0); ["Hello"], [", "], ["world"] give ["Hello, world"]. *)
Theorem C6_content_deltas_append (a : ResponsesStreamAccumulator) (idx : Z)
    (fragments : list string) :
  0 <= idx ->
  (exists a', feed (map (ContentDelta idx) fragments) a = Returned tt a'
     /\ content_at a' (Z.to_nat idx) =
        content_at a (Z.to_nat idx) +:+ foldr String.append "" fragments)
  /\ content_at (state_of (feed (map (ContentDelta 0) ["Hello"; ", "; "world"])
                             new_accumulator)) 0 = "Hello, world"
  /\ (forall eventData : gmap string JValue,
        eventData !! "type" = Some (JString "response.output_text.delta") ->
        decode_event eventData
        = (ContentDelta 0 (string_of (eventData !! "delta")), false)).
Proof.
  intros Hidx. split; [by apply feed_content|]. split; [by vm_compute|].
  apply decode_output_text_delta.
Qed.

Lemma C6_content_deltas_append_witness :
  0 <= 0 /\
  ((exists a', feed (map (ContentDelta 0) ["Hello"; ", "; "world"]) new_accumulator
               = Returned tt a'
      /\ content_at a' (Z.to_nat 0) =
         content_at new_accumulator (Z.to_nat 0)
         +:+ foldr String.append "" ["Hello"; ", "; "world"])
   /\ content_at (state_of (feed (map (ContentDelta 0) ["Hello"; ", "; "world"])
                              new_accumulator)) 0 = "Hello, world"
   /\ (forall eventData : gmap string JValue,
         eventData !! "type" = Some (JString "response.output_text.delta") ->
         decode_event eventData
         = (ContentDelta 0 (string_of (eventData !! "delta")), false))).
Proof.
  split; [lia|].
  apply (C6_content_deltas_append new_accumulator 0 ["Hello"; ", "; "world"]). lia.
Defined.

(** ** C9: the materializer *)

(** C9. [ToResponse] returns and leaves the accumulator as it was; called
    twice in a row it returns the same document twice; the document has one
    choice per slot, with index, message and finish reason copied, and with
    the tool calls attached exactly when the slot has at least one. *)
Theorem C9_ToResponse_is_a_projection (a : ResponsesStreamAccumulator) :
  exists doc,
    ToResponse a = Returned doc a
    /\ bind ToResponse (fun doc1 => bind ToResponse (fun doc2 => ret (doc1, doc2))) a
       = Returned (doc, doc) a
    /\ length (resp_Choices doc) = length (acc_Choices a)
    /\ (forall i c, acc_Choices a !! i = Some c ->
          exists out, resp_Choices doc !! i = Some out
            /\ choice_Index out = choice_Index c
            /\ choice_Message out = choice_Message c
            /\ choice_FinishReason out = choice_FinishReason c
            /\ choice_ToolCalls out =
               match choice_ToolCalls c with
               | Some (t :: ts) => Some (t :: ts)
               | _ => None
               end).
Proof.
  eexists. split; [apply ToResponse_spec|]. split; [|split].
  - unfold bind. by rewrite !ToResponse_spec.
  - simpl. apply length_map.
  - intros i c Hc. exists (materialized_choice c). simpl.
    by rewrite list_lookup_fmap, Hc.
Qed.

(** * Properties of the stream *)

Lemma one_of_cons s c cases : one_of s (c :: cases) = String.eqb s c || one_of s cases.
Proof. done. Qed.

(** Only the two terminal kinds make [Recv] set [s.err = io.EOF]. *)
Lemma decode_event_terminal (eventData : gmap string JValue) :
  (decode_event eventData).2 = one_of (string_of (eventData !! "type")) terminal_kinds.
Proof.
  unfold decode_event, terminal_kinds.
  generalize (string_of (eventData !! "type")). intros eventType.
  destruct (one_of eventType ["response.completed"; "response.incomplete"]) eqn:Hterm.
  - rewrite !one_of_cons in Hterm.
    assert (eventType = "response.completed" \/ eventType = "response.incomplete")
      as [Heq|Heq].
    { destruct (String.eqb_spec eventType "response.completed"); [by left|].
      destruct (String.eqb_spec eventType "response.incomplete"); [by right|done]. }
    all: rewrite Heq; cbv [one_of existsb String.eqb Ascii.eqb Bool.eqb orb];
      by destruct (as_object _).
  - repeat match goal with
           | |- context [if ?b then _ else _] => destruct b
           | |- context [match ?x with _ => _ end] => destruct x
           end; done.
Qed.

(** An event of a kind the switch has no case for decodes to the empty
    response. *)
Lemma decode_event_unknown (eventData : gmap string JValue) :
  one_of (string_of (eventData !! "type")) known_kinds = false ->
  decode_event eventData = (zero_Chunk, false).
Proof.
  unfold decode_event, known_kinds.
  generalize (string_of (eventData !! "type")). intros eventType.
  rewrite !one_of_cons. intros H.
  repeat (apply orb_false_elim in H as [? H]).
  unfold one_of. simpl.
  repeat match goal with
         | H : String.eqb eventType ?c = false |- _ => rewrite H; clear H
         end.
  done.
Qed.

Lemma nothing_useful_zero : nothing_useful zero_Chunk = true.
Proof. done. Qed.

Section Recv_facts.

Variable json_Unmarshal : string -> string + gmap string JValue.

Lemma Recv_from_failed lines fail e :
  Recv_from json_Unmarshal lines fail (Some e)
  = (Failed e, mkStream (mkReader lines fail) (Some e)).
Proof. by destruct lines. Qed.

Lemma Recv_from_no_payload raw rest fail :
  frame_payload raw = None ->
  Recv_from json_Unmarshal (raw :: rest) fail None
  = Recv_from json_Unmarshal rest fail None.
Proof.
  unfold frame_payload. intros H. simpl.
  case_bool_decide; [done|]. unfold HasPrefix. by rewrite H.
Qed.

(** What [Recv] does with a line that carries a payload. *)
Lemma Recv_from_payload raw rest fail data :
  frame_payload raw = Some data ->
  Recv_from json_Unmarshal (raw :: rest) fail None =
  if bool_decide (data = done_sentinel) then
    (Failed io_EOF, mkStream (mkReader rest fail) (Some io_EOF))
  else
    match json_Unmarshal data with
    | inl msg =>
        (Failed (json_error msg), mkStream (mkReader rest fail) (Some (json_error msg)))
    | inr eventData =>
        let s_err' := if (decode_event eventData).2 then Some io_EOF else None in
        if nothing_useful (decode_event eventData).1
        then Recv_from json_Unmarshal rest fail s_err'
        else (Chunk (decode_event eventData).1, mkStream (mkReader rest fail) s_err')
    end.
Proof.
  unfold frame_payload. intros H. simpl.
  rewrite bool_decide_false by (intros Hl; by rewrite Hl in H).
  unfold HasPrefix, TrimPrefix. rewrite H. simpl.
  case_bool_decide; [done|].
  destruct (json_Unmarshal data) as [msg|eventData]; [done|].
  by destruct (decode_event eventData) as [response terminal].
Qed.

Lemma Recv_from_skipped pre lines fail :
  Forall (fun raw => skipped json_Unmarshal raw = true) pre ->
  Recv_from json_Unmarshal (pre ++ lines) fail None
  = Recv_from json_Unmarshal lines fail None.
Proof.
  induction 1 as [|raw pre Hraw _ IH]; [done|].
  rewrite <- IH. unfold skipped in Hraw. cbn [app].
  destruct (frame_payload raw) as [data|] eqn:Hp.
  - rewrite (Recv_from_payload _ _ _ _ Hp).
    destruct (bool_decide (data = done_sentinel)); [done|].
    destruct (json_Unmarshal data) as [msg|eventData]; [done|].
    apply andb_true_iff in Hraw as [-> Hterm].
    apply negb_true_iff in Hterm. by rewrite Hterm.
  - by apply Recv_from_no_payload.
Qed.

End Recv_facts.

(** * The claims about the stream *)

Section Stream_claims.

Variable json_Unmarshal : string -> string + gmap string JValue.

(** C7, as the code has it. A frame whose payload [json.Unmarshal]
    rejects makes [Recv] fail with that error, which [Err] reports and
    every later [Recv] returns again. A frame that parses never fails for
    its own sake: its response is returned when it has a choice, an ID or
    a usage; otherwise the frame is passed over, and [Recv] goes on with
    the lines after it, unless the event kind is terminal, in which case
    [Recv] ends the stream with [io.EOF] and reads no further. An
    unknown kind yields nothing and is never terminal. *)
Theorem C7_decode_errors_and_skipped_frames (pre : list string) (raw : string)
    (rest : list string) (fail : error) (data : string) :
  skipped_lines json_Unmarshal pre ->
  frame_payload raw = Some data ->
  data ≠ done_sentinel ->
  let s := mkStream (mkReader (pre ++ raw :: rest) fail) None in
  let after e := mkStream (mkReader rest fail) e in
  match json_Unmarshal data with
  | inl msg =>
      Recv json_Unmarshal s = (Failed (json_error msg), after (Some (json_error msg)))
      /\ Err (after (Some (json_error msg))) = Some (json_error msg)
      /\ Recv json_Unmarshal (after (Some (json_error msg)))
         = (Failed (json_error msg), after (Some (json_error msg)))
  | inr eventData =>
      let response := (decode_event eventData).1 in
      let terminal := one_of (string_of (eventData !! "type")) terminal_kinds in
      (one_of (string_of (eventData !! "type")) known_kinds = false ->
         nothing_useful response = true /\ terminal = false)
      /\ (if nothing_useful response then
            if terminal then
              Recv json_Unmarshal s = (Failed io_EOF, after (Some io_EOF))
              /\ Err (after (Some io_EOF)) = None
            else Recv json_Unmarshal s = Recv json_Unmarshal (after None)
          else
            Recv json_Unmarshal s
            = (Chunk response, after (if terminal then Some io_EOF else None)))
  end.
Proof.
  intros Hpre Hp Hdata s after. subst s. unfold Recv. cbn [reader rd_lines rd_fail err].
  rewrite (Recv_from_skipped _ _ _ _ Hpre), (Recv_from_payload _ _ _ _ _ Hp).
  rewrite bool_decide_false by done.
  destruct (json_Unmarshal data) as [msg|eventData].
  - repeat split. subst after. cbn. by rewrite Recv_from_failed.
  - cbn zeta. rewrite <- decode_event_terminal. split.
    + intros Hunknown. by rewrite (decode_event_unknown _ Hunknown).
    + destruct (nothing_useful _); [|done].
      destruct (decode_event eventData).2; [|done].
      by rewrite Recv_from_failed.
Qed.

(** C8. Reading a frame with the payload [[DONE]] makes [Recv] return
    [io.EOF] and keep it: [Err] reports no error, and a further [Recv]
    returns [io.EOF] again with the lines after the frame still unread.
    An orderly end of data gives the same result and the same state of
    the error. *)
Theorem C8_done_sentinel_ends_stream (pre : list string) (raw : string)
    (rest : list string) (fail : error) :
  skipped_lines json_Unmarshal pre ->
  frame_payload raw = Some done_sentinel ->
  let s := mkStream (mkReader (pre ++ raw :: rest) fail) None in
  let s' := mkStream (mkReader rest fail) (Some io_EOF) in
  let t := mkStream (mkReader pre io_EOF) None in
  let t' := mkStream (mkReader [] io_EOF) (Some io_EOF) in
  (Recv json_Unmarshal s = (Failed io_EOF, s')
   /\ Err s' = None
   /\ Recv json_Unmarshal s' = (Failed io_EOF, s'))
  /\ (Recv json_Unmarshal t = (Failed io_EOF, t')
      /\ Err t' = None
      /\ Recv json_Unmarshal t' = (Failed io_EOF, t')).
Proof.
  intros Hpre Hp s s' t t'. subst s s' t t'. unfold Recv.
  cbn [reader rd_lines rd_fail err]. repeat split.
  - rewrite (Recv_from_skipped _ _ _ _ Hpre), (Recv_from_payload _ _ _ _ _ Hp).
    by rewrite bool_decide_true.
  - by rewrite Recv_from_failed.
  - rewrite <- (app_nil_r pre). by rewrite (Recv_from_skipped _ _ _ _ Hpre).
Qed.


End Stream_claims.

Lemma C7_decode_errors_and_skipped_frames_witness :
  skipped_lines sample_Unmarshal [newline; keep_alive] /\
  frame_payload (frame "{") = Some "{" /\
  "{" ≠ done_sentinel /\
  (let s := mkStream (mkReader ([newline; keep_alive] ++ frame "{" ::
                                 [frame payload_text_delta]) io_EOF) None in
   let after e := mkStream (mkReader [frame payload_text_delta] io_EOF) e in
   match sample_Unmarshal "{" with
   | inl msg =>
       Recv sample_Unmarshal s = (Failed (json_error msg), after (Some (json_error msg)))
       /\ Err (after (Some (json_error msg))) = Some (json_error msg)
       /\ Recv sample_Unmarshal (after (Some (json_error msg)))
          = (Failed (json_error msg), after (Some (json_error msg)))
   | inr eventData =>
       let response := (decode_event eventData).1 in
       let terminal := one_of (string_of (eventData !! "type")) terminal_kinds in
       (one_of (string_of (eventData !! "type")) known_kinds = false ->
          nothing_useful response = true /\ terminal = false)
       /\ (if nothing_useful response then
             if terminal then
               Recv sample_Unmarshal s = (Failed io_EOF, after (Some io_EOF))
               /\ Err (after (Some io_EOF)) = None
             else Recv sample_Unmarshal s = Recv sample_Unmarshal (after None)
           else
             Recv sample_Unmarshal s
             = (Chunk response, after (if terminal then Some io_EOF else None)))
   end).
Proof.
  split; [skipped_by_evaluation|]. split; [by vm_compute|]. split; [by vm_compute|].
  apply (C7_decode_errors_and_skipped_frames sample_Unmarshal [newline; keep_alive]
           (frame "{") [frame payload_text_delta] io_EOF "{");
    [skipped_by_evaluation|by vm_compute|by vm_compute].
Defined.

(** C7 fails as stated: a [response.completed] frame without a response
    object parses and yields nothing, yet [Recv] does not go on to the
    content delta after it; it ends the stream with [io.EOF]. *)
Lemma C7_empty_terminal_frame_ends_stream :
  let lines := [frame payload_completed_empty; frame payload_text_delta] in
  frame_payload (frame payload_completed_empty) = Some payload_completed_empty
  /\ sample_Unmarshal payload_completed_empty
     = inr {[ "type" := JString "response.completed" ]}
  /\ nothing_useful (decode_event {[ "type" := JString "response.completed" ]}).1 = true
  /\ Recv sample_Unmarshal (mkStream (mkReader lines io_EOF) None)
     = (Failed io_EOF,
        mkStream (mkReader [frame payload_text_delta] io_EOF) (Some io_EOF))
  /\ Recv sample_Unmarshal (mkStream (mkReader [frame payload_text_delta] io_EOF) None)
     = (Chunk (ContentDelta 0 "Hi"), mkStream (mkReader [] io_EOF) None).
Proof. by vm_compute. Qed.

Lemma C8_done_sentinel_ends_stream_witness :
  skipped_lines sample_Unmarshal [newline; keep_alive] /\
  frame_payload (frame "[DONE]") = Some done_sentinel /\
  (let s := mkStream (mkReader ([newline; keep_alive] ++ frame "[DONE]" ::
                                 [frame payload_text_delta]) (read_error "reset")) None in
   let s' := mkStream (mkReader [frame payload_text_delta] (read_error "reset"))
                      (Some io_EOF) in
   let t := mkStream (mkReader [newline; keep_alive] io_EOF) None in
   let t' := mkStream (mkReader [] io_EOF) (Some io_EOF) in
   (Recv sample_Unmarshal s = (Failed io_EOF, s')
    /\ Err s' = None
    /\ Recv sample_Unmarshal s' = (Failed io_EOF, s'))
   /\ (Recv sample_Unmarshal t = (Failed io_EOF, t')
       /\ Err t' = None
       /\ Recv sample_Unmarshal t' = (Failed io_EOF, t'))).
Proof.
  split; [skipped_by_evaluation|]. split; [by vm_compute|].
  apply (C8_done_sentinel_ends_stream sample_Unmarshal [newline; keep_alive]
           (frame "[DONE]") [frame payload_text_delta] (read_error "reset"));
    [skipped_by_evaluation|by vm_compute].
Defined.


(** The sample terminal event carries its usage counts. *)
Lemma sample_completed_event :
  Recv sample_Unmarshal (mkStream (mkReader [frame payload_completed] io_EOF) None)
  = (Chunk (mkChunk "resp_1" "" 0 "" [] (Some (mkUsage 10 20 30))),
     mkStream (mkReader [] io_EOF) (Some io_EOF)).
Proof. by vm_compute. Qed.

(** * Further properties of the accumulator *)

(** ** What the loop over the choices changes *)

Lemma only_choices_ret {A} (x : A) : only_choices (ret x).
Proof. intros a. exists (acc_Choices a). by destruct a. Qed.

Lemma only_choices_get : only_choices get.
Proof. intros a. exists (acc_Choices a). by destruct a. Qed.

Lemma only_choices_panic {A} : only_choices (@panic A).
Proof. intros a. exists (acc_Choices a). by destruct a. Qed.

Lemma only_choices_set cs : only_choices (modify (set_Choices cs)).
Proof. intros a. by exists cs. Qed.

Lemma only_choices_set_fun f : only_choices (modify (fun a => set_Choices (f a) a)).
Proof. intros a. by exists (f a). Qed.

Lemma only_choices_bind {A B} (m : M A) (k : A -> M B) :
  only_choices m -> (forall x, only_choices (k x)) -> only_choices (bind m k).
Proof.
  intros Hm Hk a. unfold bind. destruct (Hm a) as [cs Hcs].
  destruct (m a) as [x a1|a1]; simpl in *; [|by exists cs].
  destruct (Hk x a1) as [cs' Hcs']. exists cs'. by rewrite Hcs', Hcs.
Qed.

Lemma only_choices_if {A} (b : bool) (m1 m2 : M A) :
  only_choices m1 -> only_choices m2 -> only_choices (if b then m1 else m2).
Proof. by destruct b. Qed.

Lemma only_choices_range {A} (l : list A) (body : A -> M unit) :
  (forall x, only_choices (body x)) -> only_choices (range l body).
Proof.
  intros Hbody. induction l as [|x l IH]; simpl.
  - apply only_choices_ret.
  - apply only_choices_bind; auto.
Qed.

Create HintDb choices_only.
#[local] Hint Resolve only_choices_ret only_choices_get only_choices_panic
  only_choices_set only_choices_set_fun only_choices_if only_choices_range
  : choices_only.
#[local] Hint Extern 2 (only_choices (bind _ _)) =>
  apply only_choices_bind; [|intros ?] : choices_only.
#[local] Hint Extern 3 (only_choices (match ?x with _ => _ end)) =>
  destruct x : choices_only.

Lemma only_choices_pad_loop fuel idx : only_choices (pad_loop fuel idx).
Proof. induction fuel as [|fuel IH]; simpl; auto 10 with choices_only. Qed.
#[local] Hint Resolve only_choices_pad_loop : choices_only.

Lemma only_choices_merge_choice choice : only_choices (merge_choice choice).
Proof.
  unfold merge_choice, ensure_enough_choices, merge_tool_call, update_tool_call,
    update_choice, choice_at.
  auto 30 with choices_only.
Qed.

(** ** The loop body for any index *)

Lemma touches_false choice :
  touches choice = false ->
  nonempty (delta_Role (sc_Delta choice)) = false
  /\ nonempty (delta_Content (sc_Delta choice)) = false
  /\ delta_ToolCalls (sc_Delta choice) = []
  /\ nonempty (sc_FinishReason choice) = false.
Proof.
  unfold touches. intros H.
  repeat (apply orb_false_elim in H as [H ?]). repeat split; try done.
  destruct (delta_ToolCalls (sc_Delta choice)) as [|t ts]; [done|].
  exfalso. assert ((0 <? len (t :: ts)) = true)
    by (apply Z.ltb_lt; unfold len; cbn [length]; lia).
  congruence.
Qed.

Lemma merged_choice_untouched choice c :
  touches choice = false -> merged_choice choice c = c.
Proof.
  intros (Hr & Hc & Ht & Hf)%touches_false. unfold merged_choice.
  by rewrite Hr, Hc, Ht, Hf.
Qed.

Lemma merged_choices_untouched cs choice :
  touches choice = false -> merged_choices cs choice = pad cs (sc_Index choice).
Proof.
  intros H. unfold merged_choices. apply list_alter_id.
  intros c. by apply merged_choice_untouched.
Qed.

Lemma merge_choice_untouched choice a :
  touches choice = false ->
  merge_choice choice a
  = Returned tt (set_Choices (pad (acc_Choices a) (sc_Index choice)) a).
Proof.
  intros (Hr & Hc & Ht & Hf)%touches_false. unfold merge_choice.
  rewrite bind_Returned with (x := tt)
    (a' := set_Choices (pad (acc_Choices a) (sc_Index choice)) a)
    by apply ensure_enough_choices_spec.
  by rewrite Hr, Hc, Ht, Hf.
Qed.

Lemma merge_choice_gen choice a :
  mergeable choice = true ->
  merge_choice choice a
  = Returned tt (set_Choices (merged_choices (acc_Choices a) choice) a).
Proof.
  unfold mergeable. intros [H|H]%orb_true_iff.
  - apply merge_choice_spec. by apply Z.leb_le.
  - apply negb_true_iff in H. rewrite merged_choices_untouched by done.
    by apply merge_choice_untouched.
Qed.

Lemma update_choice_negative idx f a : idx < 0 -> update_choice idx f a = Panicked a.
Proof.
  intros H. unfold update_choice. apply bind_Panicked. by apply choice_at_negative.
Qed.

Lemma merge_choice_panics choice a :
  mergeable choice = false -> returned (merge_choice choice a) = false.
Proof.
  unfold mergeable. intros [Hidx Ht]%orb_false_elim.
  apply Z.leb_gt in Hidx. apply negb_false_iff in Ht.
  unfold merge_choice.
  set (a1 := set_Choices (pad (acc_Choices a) (sc_Index choice)) a).
  rewrite bind_Returned with (x := tt) (a' := a1) by apply ensure_enough_choices_spec.
  unfold touches in Ht.
  destruct (nonempty (delta_Role (sc_Delta choice))).
  { erewrite bind_Panicked; [done|]. by apply update_choice_negative. }
  rewrite bind_Returned with (x := tt) (a' := a1) by done.
  destruct (nonempty (delta_Content (sc_Delta choice))).
  { erewrite bind_Panicked; [done|]. apply bind_Panicked. by apply choice_at_negative. }
  rewrite bind_Returned with (x := tt) (a' := a1) by done.
  destruct (delta_ToolCalls (sc_Delta choice)) as [|t ts].
  - rewrite bind_Returned with (x := tt) (a' := a1) by done.
    simpl in Ht. rewrite Ht. by rewrite update_choice_negative.
  - assert ((0 <? len (t :: ts)) = true) as ->
      by (apply Z.ltb_lt; unfold len; cbn [length]; lia).
    erewrite bind_Panicked; [done|]. cbn [range]. apply bind_Panicked.
    unfold merge_tool_call. apply bind_Panicked. by apply choice_at_negative.
Qed.

Lemma range_merge_choice_gen choices a :
  forallb mergeable choices = true ->
  range choices merge_choice a =
  Returned tt (set_Choices (fold_left merged_choices choices (acc_Choices a)) a).
Proof.
  revert a. induction choices as [|choice choices IH]; intros a H.
  - simpl. unfold ret. by destruct a.
  - simpl in H. apply andb_true_iff in H as [Hc Hrest]. simpl.
    rewrite bind_Returned with (x := tt)
      (a' := set_Choices (merged_choices (acc_Choices a) choice) a)
      by by apply merge_choice_gen.
    rewrite IH by done. by destruct a.
Qed.

Lemma range_merge_choice_returned choices a :
  returned (range choices merge_choice a) = forallb mergeable choices.
Proof.
  revert a. induction choices as [|choice choices IH]; intros a; [done|].
  simpl. destruct (mergeable choice) eqn:Hc; simpl.
  - rewrite bind_Returned with (x := tt)
      (a' := set_Choices (merged_choices (acc_Choices a) choice) a)
      by by apply merge_choice_gen.
    apply IH.
  - pose proof (merge_choice_panics choice a Hc) as Hp. unfold bind.
    by destruct (merge_choice choice a).
Qed.

(** [AddChunk] up to its loop over the choices. *)
Lemma AddChunk_loop chunk a :
  AddChunk chunk a = range (chunk_Choices chunk) merge_choice (prepared chunk a).
Proof.
  unfold AddChunk, prepared.
  rewrite (bind_Returned get _ a a a) by done.
  set (a1 := initialised chunk a).
  rewrite bind_Returned with (x := tt) (a' := a1).
  2:{ subst a1. unfold initialised.
      destruct (bool_decide (acc_ID a = "") && nonempty (chunk_ID chunk)); [|done].
      unfold bind, modify. by destruct (0 <? len (chunk_Choices chunk)). }
  set (a2 := if chunk_Usage chunk is Some _ then _ else a1).
  rewrite bind_Returned with (x := tt) (a' := a2).
  2:{ subst a2. by destruct (chunk_Usage chunk). }
  rewrite (bind_Returned get _ a2 a2 a2) by done.
  set (a3 := if (len (acc_Choices a2) =? 0) && _ then _ else a2).
  rewrite bind_Returned with (x := tt) (a' := a3); [done|].
  subst a3. by destruct ((len (acc_Choices a2) =? 0) && _).
Qed.

Lemma added_prepared chunk a :
  added chunk a =
  set_Choices (fold_left merged_choices (chunk_Choices chunk)
                 (acc_Choices (prepared chunk a))) (prepared chunk a).
Proof. done. Qed.

Lemma AddChunk_gen chunk a :
  forallb mergeable (chunk_Choices chunk) = true ->
  AddChunk chunk a = Returned tt (added chunk a).
Proof.
  intros H. rewrite AddChunk_loop, added_prepared. by apply range_merge_choice_gen.
Qed.

Lemma AddChunk_Returned chunk a a' :
  AddChunk chunk a = Returned tt a' ->
  forallb mergeable (chunk_Choices chunk) = true /\ a' = added chunk a.
Proof.
  intros H.
  assert (forallb mergeable (chunk_Choices chunk) = true) as Hm.
  { rewrite <- range_merge_choice_returned with (a := prepared chunk a).
    by rewrite <- AddChunk_loop, H. }
  split; [done|]. rewrite (AddChunk_gen _ _ Hm) in H. by simplify_eq.
Qed.

(** X1. [AddChunk] panics exactly when some choice of the chunk has a
    negative index and something to merge (a role, a content, a tool call
    or a finish reason); otherwise it returns, with the state [added]
    describes. *)
Theorem AddChunk_returns_iff_mergeable (chunk : ResponseStreamResponse)
    (a : ResponsesStreamAccumulator) :
  returned (AddChunk chunk a) = forallb mergeable (chunk_Choices chunk)
  /\ (forallb mergeable (chunk_Choices chunk) = true ->
      AddChunk chunk a = Returned tt (added chunk a)).
Proof.
  split; [|apply AddChunk_gen].
  rewrite AddChunk_loop. apply range_merge_choice_returned.
Qed.

(** ** Usage *)

Lemma prepared_usage chunk a :
  acc_Usage (prepared chunk a) =
  match chunk_Usage chunk with Some u => Some u | None => acc_Usage a end.
Proof.
  unfold prepared, initialised.
  destruct (bool_decide (acc_ID a = "") && nonempty (chunk_ID chunk)),
    (chunk_Usage chunk), (_ && _); done.
Qed.

Lemma AddChunk_usage chunk a :
  acc_Usage (state_of (AddChunk chunk a)) =
  match chunk_Usage chunk with Some u => Some u | None => acc_Usage a end.
Proof.
  rewrite AddChunk_loop.
  destruct (only_choices_range (chunk_Choices chunk) merge_choice
              only_choices_merge_choice (prepared chunk a)) as [cs ->].
  simpl. apply prepared_usage.
Qed.

(** X2. The usage of the accumulator is the usage of the last chunk that
    carried one: a chunk with usage overwrites it, a chunk without leaves
    it, whether [AddChunk] returns or panics; so a usage once set is never
    cleared by later chunks. *)
Theorem usage_last_write_wins (chunk : ResponseStreamResponse)
    (chunks : list ResponseStreamResponse) (a : ResponsesStreamAccumulator) :
  acc_Usage (state_of (AddChunk chunk a)) =
    match chunk_Usage chunk with Some u => Some u | None => acc_Usage a end
  /\ (is_Some (acc_Usage a) -> is_Some (acc_Usage (state_of (feed chunks a)))).
Proof.
  split; [apply AddChunk_usage|].
  revert a. induction chunks as [|c chunks IH]; intros a Ha; [done|].
  rewrite feed_cons. unfold bind.
  pose proof (AddChunk_usage c a) as Hu.
  assert (is_Some (acc_Usage (state_of (AddChunk c a)))) as Hs.
  { rewrite Hu. by destruct (chunk_Usage c). }
  destruct (AddChunk c a) as [[] a1|a1]; simpl in *; [by apply IH|done].
Qed.

(** ** Tool calls: order, other identities, distinct identities *)

Lemma find_tool_call_found_app i l1 l2 id k t :
  l1 !! k = Some t -> tc_ID t = id ->
  find_tool_call i (l1 ++ l2) id = find_tool_call i l1 id.
Proof.
  revert i k. induction l1 as [|t1 l1 IH]; intros i [|k] Hk Hid; simplify_eq/=.
  - by rewrite bool_decide_true.
  - case_bool_decide; [done|]. by eapply IH.
Qed.

Lemma slot_None tcs x :
  slot tcs x = None <-> Forall (fun t => tc_ID t ≠ x) tcs.
Proof.
  unfold slot.
  destruct (find_tool_call_spec 0 tcs x) as [[-> Hall]|(k & t & -> & Hk & Hid & _)];
    [lia|..].
  - done.
  - assert ((0 + Z.of_nat k =? -1) = false) as -> by (apply Z.eqb_neq; lia).
    replace (Z.to_nat (0 + Z.of_nat k)) with k by lia. rewrite Hk.
    split; [done|]. intros Hall. exfalso.
    by apply (proj1 (Forall_lookup _ _) Hall k t Hk).
Qed.

Lemma slot_Some tcs x t :
  slot tcs x = Some t ->
  exists k, find_tool_call 0 tcs x = Z.of_nat k /\ tcs !! k = Some t /\ tc_ID t = x.
Proof.
  unfold slot.
  destruct (find_tool_call_spec 0 tcs x) as [[-> Hall]|(k & t' & -> & Hk & Hid & _)];
    [lia|done|].
  assert ((0 + Z.of_nat k =? -1) = false) as -> by (apply Z.eqb_neq; lia).
  replace (Z.to_nat (0 + Z.of_nat k)) with k by lia. rewrite Hk.
  intros ?; simplify_eq. exists k. repeat split; try done; lia.
Qed.

Lemma merged_tool_calls_ids tcs d :
  map tc_ID (merged_tool_calls tcs d) =
  map tc_ID tcs ++ (if slot tcs (tc_ID d) is Some _ then [] else [tc_ID d]).
Proof.
  unfold merged_tool_calls.
  destruct (slot tcs (tc_ID d)) as [t|] eqn:Hslot.
  - destruct (slot_Some _ _ _ Hslot) as (k & -> & _ & _).
    assert ((Z.of_nat k =? -1) = false) as -> by (apply Z.eqb_neq; lia).
    by rewrite map_tc_ID_alter, app_nil_r.
  - apply slot_None in Hslot.
    destruct (find_tool_call_spec 0 tcs (tc_ID d)) as [[-> _]|(k & t & _ & Hk & Hid & _)];
      [lia|simpl; by rewrite map_app|].
    exfalso. by apply (proj1 (Forall_lookup _ _) Hslot k t Hk).
Qed.

Lemma slot_merged_other tcs d y :
  y ≠ tc_ID d -> slot (merged_tool_calls tcs d) y = slot tcs y.
Proof.
  intros Hy. unfold merged_tool_calls.
  destruct (find_tool_call_spec 0 tcs (tc_ID d)) as
    [[-> Hall]|(k & t & -> & Hk & Hid & _)]; [lia|..].
  - simpl. unfold slot.
    destruct (find_tool_call_spec 0 tcs y) as [[Hf Hally]|(j & u & Hf & Hj & Hu & _)];
      [lia|..].
    + rewrite find_tool_call_app by done. simpl.
      rewrite bool_decide_false by done. by rewrite Hf.
    + rewrite (find_tool_call_found_app _ _ _ _ j u) by done. rewrite Hf.
      assert ((0 + Z.of_nat j =? -1) = false) as -> by (apply Z.eqb_neq; lia).
      replace (Z.to_nat (0 + Z.of_nat j)) with j by lia.
      by rewrite (lookup_app_l_Some _ _ _ _ Hj).
  - assert ((0 + Z.of_nat k =? -1) = false) as -> by (apply Z.eqb_neq; lia).
    replace (Z.to_nat (0 + Z.of_nat k)) with k by lia.
    unfold slot. rewrite (find_tool_call_ids _ _ tcs) by apply map_tc_ID_alter.
    destruct (find_tool_call_spec 0 tcs y) as [[-> _]|(j & u & -> & Hj & Hu & _)];
      [lia|done|].
    assert ((0 + Z.of_nat j =? -1) = false) as -> by (apply Z.eqb_neq; lia).
    replace (Z.to_nat (0 + Z.of_nat j)) with j by lia.
    rewrite list_lookup_alter_ne; [done|]. intros ->. by simplify_eq.
Qed.

Lemma AddChunk_one_choice_other idx d a k :
  0 <= idx -> k ≠ Z.to_nat idx -> (k < length (acc_Choices a))%nat ->
  acc_Choices (state_of (AddChunk (one_choice idx d) a)) !! k = acc_Choices a !! k.
Proof.
  intros Hidx Hk Hlt. rewrite AddChunk_one_choice by done. simpl.
  rewrite merged_choices_lookup_ne by done. by apply pad_lookup_old.
Qed.

(** X3. An event for the tool call with identity [x] keeps the tool calls
    of the choice in their order, appending one exactly when [x] was not
    there; it leaves the slots of all other identities as they were, and
    the other choices too. *)
Theorem tool_call_event_frame (a : ResponsesStreamAccumulator) (idx : Z)
    (d : ResponseToolCall) :
  0 <= idx ->
  exists a', AddChunk (one_choice idx (tool_call_delta d)) a = Returned tt a'
    /\ map tc_ID (tool_calls_at a' (Z.to_nat idx)) =
       map tc_ID (tool_calls_at a (Z.to_nat idx))
       ++ (if slot_at a (Z.to_nat idx) (tc_ID d) is Some _ then [] else [tc_ID d])
    /\ (forall y, y ≠ tc_ID d ->
          slot_at a' (Z.to_nat idx) y = slot_at a (Z.to_nat idx) y)
    /\ (forall k, k ≠ Z.to_nat idx -> (k < length (acc_Choices a))%nat ->
          acc_Choices a' !! k = acc_Choices a !! k).
Proof.
  intros Hidx. destruct (AddChunk_tool_call idx d a Hidx) as (a' & Hadd & Hcalls).
  exists a'. split; [done|]. unfold slot_at. rewrite Hcalls. repeat split.
  - apply merged_tool_calls_ids.
  - intros y Hy. by apply slot_merged_other.
  - intros k Hk Hlt.
    pose proof (AddChunk_one_choice_other idx (tool_call_delta d) a k Hidx Hk Hlt) as H.
    by rewrite Hadd in H.
Qed.

Lemma tool_call_event_frame_witness :
  0 <= 0 /\
  (exists a', AddChunk (one_choice 0 (tool_call_delta renamed_call))
                (state_of (AddChunk (one_choice 0 (tool_call_delta weather_call))
                             new_accumulator)) = Returned tt a'
     /\ map tc_ID (tool_calls_at a' (Z.to_nat 0)) =
        map tc_ID (tool_calls_at
                     (state_of (AddChunk (one_choice 0 (tool_call_delta weather_call))
                                  new_accumulator)) (Z.to_nat 0))
        ++ (if slot_at (state_of (AddChunk (one_choice 0 (tool_call_delta weather_call))
                                    new_accumulator)) (Z.to_nat 0) (tc_ID renamed_call)
            is Some _ then [] else [tc_ID renamed_call])
     /\ (forall y, y ≠ tc_ID renamed_call ->
           slot_at a' (Z.to_nat 0) y =
           slot_at (state_of (AddChunk (one_choice 0 (tool_call_delta weather_call))
                                new_accumulator)) (Z.to_nat 0) y)
     /\ (forall k, k ≠ Z.to_nat 0 ->
           (k < length (acc_Choices
                          (state_of (AddChunk (one_choice 0 (tool_call_delta weather_call))
                                       new_accumulator))))%nat ->
           acc_Choices a' !! k =
           acc_Choices (state_of (AddChunk (one_choice 0 (tool_call_delta weather_call))
                                    new_accumulator)) !! k)).
Proof.
  split; [lia|].
  apply (tool_call_event_frame
           (state_of (AddChunk (one_choice 0 (tool_call_delta weather_call))
                        new_accumulator)) 0 renamed_call).
  lia.
Defined.

(** X5. An event for an existing tool call never changes its ID or its
    call ID, so [GetCallID] of the slot is stable; the type is overwritten
    by a non-empty type only. *)
Theorem existing_tool_call_keeps_ids (a : ResponsesStreamAccumulator) (idx : Z)
    (d t : ResponseToolCall) :
  0 <= idx ->
  slot_at a (Z.to_nat idx) (tc_ID d) = Some t ->
  exists a' t', AddChunk (one_choice idx (tool_call_delta d)) a = Returned tt a'
    /\ slot_at a' (Z.to_nat idx) (tc_ID d) = Some t'
    /\ tc_ID t' = tc_ID t
    /\ tc_CallID t' = tc_CallID t
    /\ GetCallID t' = GetCallID t
    /\ tc_Type t' = (if nonempty (tc_Type d) then tc_Type d else tc_Type t).
Proof.
  intros Hidx Ht.
  destruct (AddChunk_tool_call idx d a Hidx) as (a' & Hadd & Hcalls).
  exists a', (updated_tool_call d t). split; [done|].
  unfold slot_at in *. rewrite Hcalls, slot_merged, Ht.
  unfold updated_tool_call, GetCallID.
  by destruct (nonempty (tc_Type d)), (nonempty (fn_Name (tc_Function d))),
    (nonempty (fn_Arguments (tc_Function d))).
Qed.

Lemma existing_tool_call_keeps_ids_witness :
  0 <= 0 /\
  slot_at (state_of (AddChunk (one_choice 0 (tool_call_delta weather_call))
                       new_accumulator)) (Z.to_nat 0) (tc_ID renamed_call)
    = Some weather_call /\
  (exists a' t', AddChunk (one_choice 0 (tool_call_delta renamed_call))
                   (state_of (AddChunk (one_choice 0 (tool_call_delta weather_call))
                                new_accumulator)) = Returned tt a'
     /\ slot_at a' (Z.to_nat 0) (tc_ID renamed_call) = Some t'
     /\ tc_ID t' = tc_ID weather_call
     /\ tc_CallID t' = tc_CallID weather_call
     /\ GetCallID t' = GetCallID weather_call
     /\ tc_Type t' = (if nonempty (tc_Type renamed_call) then tc_Type renamed_call
                      else tc_Type weather_call)).
Proof.
  split; [lia|]. split; [by vm_compute|].
  apply (existing_tool_call_keeps_ids
           (state_of (AddChunk (one_choice 0 (tool_call_delta weather_call))
                        new_accumulator)) 0 renamed_call weather_call);
    [lia|by vm_compute].
Defined.

(** ** Fields of a merged choice *)

Lemma fold_merged_tool_call_fields ds c :
  let c' := fold_left (fun c t => merged_tool_call t c) ds c in
  choice_Index c' = choice_Index c
  /\ choice_Message c' = choice_Message c
  /\ choice_FinishReason c' = choice_FinishReason c.
Proof.
  revert c. induction ds as [|d ds IH]; intros c; [done|].
  simpl. destruct (IH (merged_tool_call d c)) as (-> & -> & ->). done.
Qed.

Lemma merged_choice_fields choice c :
  choice_Index (merged_choice choice c) = choice_Index c
  /\ msg_Role (choice_Message (merged_choice choice c)) =
     (if nonempty (delta_Role (sc_Delta choice)) then delta_Role (sc_Delta choice)
      else msg_Role (choice_Message c))
  /\ msg_Content (choice_Message (merged_choice choice c)) =
     msg_Content (choice_Message c) +:+ delta_Content (sc_Delta choice)
  /\ choice_FinishReason (merged_choice choice c) =
     (if nonempty (sc_FinishReason choice) then sc_FinishReason choice
      else choice_FinishReason c).
Proof.
  unfold merged_choice.
  set (c1 := if nonempty (delta_Role _) then _ else c).
  set (c2 := if nonempty (delta_Content _) then _ else c1).
  destruct (fold_merged_tool_call_fields (delta_ToolCalls (sc_Delta choice)) c2)
    as (Hi & Hm & Hf).
  set (c3 := fold_left _ _ c2) in *.
  assert (choice_Index c2 = choice_Index c
          /\ msg_Role (choice_Message c2) =
             (if nonempty (delta_Role (sc_Delta choice)) then delta_Role (sc_Delta choice)
              else msg_Role (choice_Message c))
          /\ msg_Content (choice_Message c2) =
             msg_Content (choice_Message c) +:+ delta_Content (sc_Delta choice)
          /\ choice_FinishReason c2 = choice_FinishReason c) as (H1 & H2 & H3 & H4).
  { subst c2 c1. unfold nonempty.
    destruct (bool_decide (delta_Role (sc_Delta choice) = ""));
      case_bool_decide as Hc; simpl; repeat split; try done;
      by rewrite Hc, string_app_empty_r. }
  destruct (nonempty (sc_FinishReason choice)); simpl;
    rewrite ?Hi, ?Hm, ?Hf; by rewrite ?H1, ?H2, ?H3, ?H4.
Qed.

Lemma merged_choice_tool_calls choice c :
  default [] (choice_ToolCalls (merged_choice choice c)) =
  fold_left merged_tool_calls (delta_ToolCalls (sc_Delta choice))
    (default [] (choice_ToolCalls c)).
Proof.
  unfold merged_choice.
  set (c1 := if nonempty (delta_Role _) then _ else c).
  set (c2 := if nonempty (delta_Content _) then _ else c1).
  assert (choice_ToolCalls c2 = choice_ToolCalls c) as <-.
  { subst c2 c1. by destruct (nonempty (delta_Role _)), (nonempty (delta_Content _)). }
  assert (forall ds c0,
    default [] (choice_ToolCalls (fold_left (fun c t => merged_tool_call t c) ds c0))
    = fold_left merged_tool_calls ds (default [] (choice_ToolCalls c0))) as Hfold.
  { induction ds as [|d ds IH]; intros c0; [done|]. simpl. by rewrite IH. }
  destruct (nonempty (sc_FinishReason choice)); simpl; apply Hfold.
Qed.

(** ** Slot-wise invariants of [added] *)

Lemma Forall_pad (Q : ResponseChoice -> Prop) cs idx :
  (forall k, Q (fresh_choice k)) -> Forall Q cs -> Forall Q (pad cs idx).
Proof.
  intros Hfresh Hcs. unfold pad. apply Forall_app. split; [done|].
  apply Forall_forall. intros c Hc. apply list_elem_of_In, in_map_iff in Hc
    as (k & <- & _). apply Hfresh.
Qed.

Lemma Forall_merged_choices (Q : ResponseChoice -> Prop) cs choice :
  (forall k, Q (fresh_choice k)) ->
  (forall c, Q c -> Q (merged_choice choice c)) ->
  Forall Q cs -> Forall Q (merged_choices cs choice).
Proof.
  intros Hfresh Hstep Hcs. unfold merged_choices.
  apply Forall_alter; [by apply Forall_pad|]. intros c _. apply Hstep.
Qed.

Lemma Forall_prepared (Q : ResponseChoice -> Prop) chunk a :
  (forall k, Q (fresh_choice k)) ->
  Forall Q (acc_Choices a) -> Forall Q (acc_Choices (prepared chunk a)).
Proof.
  intros Hfresh Ha. unfold prepared.
  set (a2 := if chunk_Usage chunk is Some _ then _ else _).
  assert (Forall Q (acc_Choices a2)) as Ha2.
  { subst a2. unfold initialised.
    assert (Forall Q (map (fun c => fresh_choice (sc_Index c)) (chunk_Choices chunk))).
    { apply Forall_forall. intros c Hc. apply list_elem_of_In, in_map_iff in Hc
        as (k & <- & _). apply Hfresh. }
    destruct (bool_decide (acc_ID a = "") && nonempty (chunk_ID chunk)),
      (chunk_Usage chunk), (0 <? len (chunk_Choices chunk)); simpl; try done;
      by repeat constructor. }
  destruct (_ && _); [|done]. simpl. by repeat constructor.
Qed.

Lemma Forall_added (Q : ResponseChoice -> Prop) chunk a :
  (forall k, Q (fresh_choice k)) ->
  (forall choice c, choice ∈ chunk_Choices chunk -> Q c -> Q (merged_choice choice c)) ->
  Forall Q (acc_Choices a) -> Forall Q (acc_Choices (added chunk a)).
Proof.
  intros Hfresh Hstep Ha. rewrite added_prepared. simpl.
  pose proof (Forall_prepared Q chunk a Hfresh Ha) as Hp.
  revert Hstep Hp. generalize (acc_Choices (prepared chunk a)).
  induction (chunk_Choices chunk) as [|choice choices IH]; intros cs Hstep Hcs; [done|].
  simpl. apply IH.
  - intros ch c Hch Hc. apply Hstep; [by constructor|done].
  - apply Forall_merged_choices; [done| |done].
    intros c Hc. apply Hstep; [by constructor|done].
Qed.

(** An invariant that every returning [AddChunk] keeps holds after
    feeding. *)
Lemma feed_invariant (I : ResponsesStreamAccumulator -> Prop) chunks :
  (forall chunk a, chunk ∈ chunks -> I a -> I (added chunk a)) ->
  forall a a', I a -> feed chunks a = Returned tt a' -> I a'.
Proof.
  induction chunks as [|chunk chunks IH]; intros Hstep a a' Ha Hfeed.
  - unfold feed in Hfeed. simpl in Hfeed. unfold ret in Hfeed. by simplify_eq.
  - rewrite feed_cons in Hfeed. unfold bind in Hfeed.
    destruct (AddChunk chunk a) as [[] a1|a1] eqn:Hadd; [|done].
    apply AddChunk_Returned in Hadd as [_ ->].
    eapply IH; [|apply Hstep; [by constructor|exact Ha]|exact Hfeed].
    intros c a0 Hc Ha0. apply Hstep; [by constructor|done].
Qed.

Lemma NoDup_merged_tool_calls tcs d :
  NoDup (map tc_ID tcs) -> NoDup (map tc_ID (merged_tool_calls tcs d)).
Proof.
  intros Hnd. rewrite merged_tool_calls_ids.
  destruct (slot tcs (tc_ID d)) as [t|] eqn:Hslot; [by rewrite app_nil_r|].
  apply slot_None in Hslot. apply NoDup_app. repeat split; [done| |apply NoDup_singleton].
  intros x Hx ->%list_elem_of_singleton.
  apply list_elem_of_In, in_map_iff in Hx as (t & Ht & Hin).
  apply list_elem_of_In in Hin.
  by apply (proj1 (Forall_forall _ _) Hslot t Hin).
Qed.

(** X4. The search before the append keeps the identities of the tool
    calls of every choice pairwise different: whatever chunks are fed, two
    tool calls of one choice never share an ID (events with the same ID,
    the empty one included, go to one slot). *)
Theorem tool_call_identities_stay_distinct (chunks : list ResponseStreamResponse)
    (a a' : ResponsesStreamAccumulator) :
  distinct_identities (acc_Choices a) ->
  feed chunks a = Returned tt a' ->
  distinct_identities (acc_Choices a').
Proof.
  intros Ha Hfeed.
  apply (feed_invariant (fun a => distinct_identities (acc_Choices a)) chunks)
    with (a := a); [|done..].
  intros chunk a0 _ Ha0. apply Forall_added; [by constructor| |done].
  intros choice c _ Hc. rewrite merged_choice_tool_calls.
  revert Hc. generalize (default [] (choice_ToolCalls c)).
  induction (delta_ToolCalls (sc_Delta choice)) as [|d ds IH]; intros tcs Htcs; [done|].
  simpl. apply IH. by apply NoDup_merged_tool_calls.
Qed.

Lemma tool_call_identities_stay_distinct_witness :
  distinct_identities (acc_Choices new_accumulator) /\
  feed [one_choice 0 (tool_call_delta zero_ToolCall);
        one_choice 0 (tool_call_delta zero_ToolCall);
        one_choice 0 (tool_call_delta weather_call)] new_accumulator
  = Returned tt (set_Choices
      [mkChoice 0 (mkMessage "assistant" "") "" (Some [zero_ToolCall; weather_call])]
      new_accumulator) /\
  distinct_identities
    (acc_Choices (set_Choices
      [mkChoice 0 (mkMessage "assistant" "") "" (Some [zero_ToolCall; weather_call])]
      new_accumulator)).
Proof.
  assert (distinct_identities (acc_Choices new_accumulator)) as H0 by constructor.
  split; [exact H0|]. split; [by vm_compute|].
  apply (tool_call_identities_stay_distinct
           [one_choice 0 (tool_call_delta zero_ToolCall);
            one_choice 0 (tool_call_delta zero_ToolCall);
            one_choice 0 (tool_call_delta weather_call)] new_accumulator);
    [exact H0|by vm_compute].
Defined.

(** ** Role and finish reason *)

Lemma AddChunk_single_choice choice a :
  0 <= sc_Index choice ->
  AddChunk (mkChunk "" "" 0 "" [choice] None) a =
  Returned tt (set_Choices (merged_choices (acc_Choices a) choice) a).
Proof.
  intros Hidx. rewrite AddChunk_spec by (by repeat constructor).
  f_equal. unfold added, initialised. simpl. rewrite andb_false_r.
  unfold len at 2. simpl. rewrite andb_true_r.
  destruct a as [i o c m cs u]. simpl.
  destruct cs as [|c0 cs]; simpl; [|done].
  unfold set_Choices, merged_choices. simpl. by rewrite pad_fresh_0.
Qed.

(** X6. For the role and the finish reason of a choice the last non-empty
    write wins: a chunk whose choice carries a non-empty role (finish
    reason) overwrites the one accumulated, also when it was set before; an
    empty one leaves it, and a slot that did not exist starts with the role
    ["assistant"] and no finish reason. *)
Theorem role_and_finish_reason_last_write_wins (a : ResponsesStreamAccumulator)
    (choice : ResponseStreamChoice) :
  0 <= sc_Index choice ->
  exists a', AddChunk (mkChunk "" "" 0 "" [choice] None) a = Returned tt a'
    /\ role_at a' (Z.to_nat (sc_Index choice)) =
       (if nonempty (delta_Role (sc_Delta choice)) then delta_Role (sc_Delta choice)
        else role_at a (Z.to_nat (sc_Index choice)))
    /\ finish_reason_at a' (Z.to_nat (sc_Index choice)) =
       (if nonempty (sc_FinishReason choice) then sc_FinishReason choice
        else finish_reason_at a (Z.to_nat (sc_Index choice))).
Proof.
  intros Hidx. eexists. split; [by apply AddChunk_single_choice|].
  unfold role_at, finish_reason_at. simpl.
  rewrite merged_choices_lookup_idx by done.
  set (c := default _ _).
  destruct (merged_choice_fields choice c) as (_ & -> & _ & ->).
  subst c. by destruct (acc_Choices a !! Z.to_nat (sc_Index choice)).
Qed.

Lemma role_and_finish_reason_last_write_wins_witness :
  0 <= sc_Index (mkStreamChoice 0 (mkDelta "user" "" []) "stop") /\
  (exists a', AddChunk (mkChunk "" "" 0 "" [mkStreamChoice 0 (mkDelta "user" "" []) "stop"]
                          None)
                (state_of (AddChunk (ContentDelta 0 "Hi") new_accumulator))
              = Returned tt a'
     /\ role_at a' (Z.to_nat (sc_Index (mkStreamChoice 0 (mkDelta "user" "" []) "stop"))) =
        (if nonempty (delta_Role (sc_Delta (mkStreamChoice 0 (mkDelta "user" "" []) "stop")))
         then delta_Role (sc_Delta (mkStreamChoice 0 (mkDelta "user" "" []) "stop"))
         else role_at (state_of (AddChunk (ContentDelta 0 "Hi") new_accumulator))
                (Z.to_nat (sc_Index (mkStreamChoice 0 (mkDelta "user" "" []) "stop"))))
     /\ finish_reason_at a'
          (Z.to_nat (sc_Index (mkStreamChoice 0 (mkDelta "user" "" []) "stop"))) =
        (if nonempty (sc_FinishReason (mkStreamChoice 0 (mkDelta "user" "" []) "stop"))
         then sc_FinishReason (mkStreamChoice 0 (mkDelta "user" "" []) "stop")
         else finish_reason_at (state_of (AddChunk (ContentDelta 0 "Hi") new_accumulator))
                (Z.to_nat (sc_Index (mkStreamChoice 0 (mkDelta "user" "" []) "stop"))))).
Proof.
  split; [simpl; lia|].
  apply (role_and_finish_reason_last_write_wins
           (state_of (AddChunk (ContentDelta 0 "Hi") new_accumulator))
           (mkStreamChoice 0 (mkDelta "user" "" []) "stop")).
  simpl. lia.
Defined.

(** ** When the choices are empty *)

Lemma length_fold_merged_choices choices cs :
  (length cs <= length (fold_left merged_choices choices cs))%nat.
Proof.
  revert cs. induction choices as [|choice choices IH]; intros cs; [done|].
  simpl. etrans; [|apply IH]. rewrite length_merged_choices, length_pad. lia.
Qed.

Lemma prepared_choices_empty chunk a :
  acc_Choices (prepared chunk a) = [] <->
  acc_Choices a = [] /\ chunk_Choices chunk = []
  /\ (acc_ID a ≠ "" \/ chunk_ID chunk = "").
Proof.
  unfold prepared, initialised, nonempty.
  destruct a as [i o c m cs u]. cbn [acc_ID acc_Choices].
  destruct (chunk_Choices chunk) as [|choice choices];
    destruct cs as [|c0 cs]; destruct (chunk_Usage chunk);
    destruct (decide (i = "")) as [Hi|Hi];
    destruct (decide (chunk_ID chunk = "")) as [Hc|Hc];
    rewrite ?(bool_decide_true _ Hi), ?(bool_decide_false _ Hi),
      ?(bool_decide_true _ Hc), ?(bool_decide_false _ Hc);
    simpl; split; try done; try (intros (? & ? & [?|?]); done);
    intros _; repeat split; auto.
Qed.

(** X7. After a returning [AddChunk] the accumulator has no choice exactly
    when it had none before, the chunk has none, and the chunk does not set
    the ID for the first time: a chunk with usage only leaves the choices
    empty, and choices once there never vanish. *)
Theorem choices_empty_iff (chunk : ResponseStreamResponse)
    (a a' : ResponsesStreamAccumulator) :
  AddChunk chunk a = Returned tt a' ->
  acc_Choices a' = [] <->
  acc_Choices a = [] /\ chunk_Choices chunk = []
  /\ (acc_ID a ≠ "" \/ chunk_ID chunk = "").
Proof.
  intros [_ ->]%AddChunk_Returned. rewrite added_prepared. cbn [acc_Choices set_Choices].
  rewrite <- prepared_choices_empty.
  pose proof (length_fold_merged_choices (chunk_Choices chunk)
                (acc_Choices (prepared chunk a))) as Hlen.
  split.
  - intros H. rewrite H in Hlen. simpl in Hlen.
    destruct (acc_Choices (prepared chunk a)); [done|simpl in Hlen; lia].
  - intros H. apply prepared_choices_empty in H as Hcond.
    destruct Hcond as (_ & -> & _). by rewrite H.
Qed.

Lemma choices_empty_iff_witness :
  AddChunk completed_chunk new_accumulator
  = Returned tt (mkAcc "resp_2" "response.other" 1700000001 "gpt-4o-mini"
                   [fresh_choice 0] (Some (mkUsage 10 20 30))) /\
  (acc_Choices (mkAcc "resp_2" "response.other" 1700000001 "gpt-4o-mini"
                  [fresh_choice 0] (Some (mkUsage 10 20 30))) = [] <->
   acc_Choices new_accumulator = [] /\ chunk_Choices completed_chunk = []
   /\ (acc_ID new_accumulator ≠ "" \/ chunk_ID completed_chunk = "")).
Proof.
  split; [by vm_compute|].
  apply (choices_empty_iff completed_chunk new_accumulator). by vm_compute.
Defined.

(** * Further properties of the decoder and of the stream *)

Lemma decode_event_shape (eventData : gmap string JValue) :
  let r := (decode_event eventData).1 in
  (chunk_Choices r = []
   \/ exists idx d, chunk_Choices r = [mkStreamChoice idx d ""]
        /\ delta_Role d = ""
        /\ (length (delta_ToolCalls d) <= 1)%nat
        /\ (delta_Content d ≠ "" -> delta_ToolCalls d = []))
  /\ (chunk_Choices r ≠ [] -> chunk_ID r = "" /\ chunk_Usage r = None)
  /\ (chunk_Usage r ≠ None -> (decode_event eventData).2 = true)
  /\ ((decode_event eventData).2 = true -> chunk_Choices r = []).
Proof.
  unfold decode_event, usage_from, identity_from.
  repeat match goal with
         | |- context [if ?b then _ else _] => destruct b
         | |- context [match ?x with _ => _ end] => destruct x
         end; simpl;
    (split; [first [by left | right; do 2 eexists; split; [reflexivity|];
                               simpl; repeat split; (lia || congruence || done)]|]);
    repeat split; congruence.
Qed.

(** X8. Shape of every response the decoder builds: it has no choice or
    exactly one, whose role and finish reason are empty and which carries
    at most one tool call and no tool call beside content; a response with
    a choice has neither ID nor usage; usage comes with a terminal event
    only, and a terminal event has no choice. *)
Theorem decoded_response_shape (eventData : gmap string JValue) :
  let r := (decode_event eventData).1 in
  (chunk_Choices r = []
   \/ exists idx d, chunk_Choices r = [mkStreamChoice idx d ""]
        /\ delta_Role d = ""
        /\ (length (delta_ToolCalls d) <= 1)%nat
        /\ (delta_Content d ≠ "" -> delta_ToolCalls d = []))
  /\ (chunk_Choices r ≠ [] -> chunk_ID r = "" /\ chunk_Usage r = None)
  /\ (chunk_Usage r ≠ None -> (decode_event eventData).2 = true)
  /\ ((decode_event eventData).2 = true -> chunk_Choices r = []).
Proof. apply decode_event_shape. Qed.

Lemma decoded_choice_plain chunk choice :
  decoded chunk -> choice ∈ chunk_Choices chunk ->
  delta_Role (sc_Delta choice) = "" /\ sc_FinishReason choice = "".
Proof.
  intros [eventData ->] Hin.
  destruct (decode_event_shape eventData) as ([H|(idx & d & H & Hr & _)] & _);
    rewrite H in Hin.
  - by apply not_elem_of_nil in Hin.
  - apply list_elem_of_singleton in Hin as ->. done.
Qed.

(** X9. Chunks built by the decoder never set a role or a finish reason:
    feeding any sequence of them to an accumulator whose choices all have
    the role ["assistant"] and an empty finish reason (a new one, for
    instance) leaves every choice so. The streaming path never reports a
    finish reason. *)
Theorem decoded_chunks_leave_role_and_finish_reason
    (chunks : list ResponseStreamResponse) (a a' : ResponsesStreamAccumulator) :
  Forall decoded chunks ->
  plain (acc_Choices a) ->
  feed chunks a = Returned tt a' ->
  plain (acc_Choices a').
Proof.
  intros Hdec Ha Hfeed.
  apply (feed_invariant (fun a => plain (acc_Choices a)) chunks) with (a := a);
    [|done..].
  intros chunk a0 Hin Ha0. apply Forall_added; [done| |done].
  intros choice c Hchoice [Hrole Hfinish].
  destruct (decoded_choice_plain chunk choice) as [Hr Hf];
    [by apply (proj1 (Forall_forall _ _) Hdec)|done|].
  destruct (merged_choice_fields choice c) as (_ & -> & _ & ->).
  by rewrite Hr, Hf.
Qed.

Lemma decoded_chunks_leave_role_and_finish_reason_witness :
  Forall decoded [(decode_event {[ "type" := JString "response.output_text.delta";
                                   "delta" := JString "Hi" ]}).1] /\
  plain (acc_Choices new_accumulator) /\
  feed [(decode_event {[ "type" := JString "response.output_text.delta";
                         "delta" := JString "Hi" ]}).1] new_accumulator
  = Returned tt (set_Choices [mkChoice 0 (mkMessage "assistant" "Hi") "" None]
                   new_accumulator) /\
  plain (acc_Choices (set_Choices [mkChoice 0 (mkMessage "assistant" "Hi") "" None]
                        new_accumulator)).
Proof.
  assert (Forall decoded [(decode_event {[ "type" := JString "response.output_text.delta";
                                           "delta" := JString "Hi" ]}).1]) as Hd
    by (constructor; [by eexists|constructor]).
  assert (plain (acc_Choices new_accumulator)) as Hp by constructor.
  split; [exact Hd|]. split; [exact Hp|]. split; [by vm_compute|].
  apply (decoded_chunks_leave_role_and_finish_reason
           [(decode_event {[ "type" := JString "response.output_text.delta";
                             "delta" := JString "Hi" ]}).1] new_accumulator);
    [exact Hd|exact Hp|by vm_compute].
Defined.

(** ** The index field *)

Lemma indexed_merged_choices cs choice :
  indexed cs -> indexed (merged_choices cs choice).
Proof.
  intros Hcs k c. unfold merged_choices. rewrite list_lookup_alter.
  assert (forall c0, pad cs (sc_Index choice) !! k = Some c0 ->
                     choice_Index c0 = Z.of_nat k) as Hpad.
  { intros c0. rewrite pad_lookup.
    repeat case_decide; intros Heq; simplify_eq; first [by apply Hcs|done]. }
  case_decide as Hk.
  - rewrite Hk. destruct (pad cs (sc_Index choice) !! k) as [c0|] eqn:Hc0;
      [|intros ?; by simplify_eq/=].
    simpl. intros [= <-].
    destruct (merged_choice_fields choice c0) as (-> & _). by apply Hpad.
  - apply Hpad.
Qed.

Lemma indexed_fresh_0 : indexed [fresh_choice 0].
Proof. intros [|k] c; [by intros [= <-]|done]. Qed.

Lemma indexed_prepared chunk a :
  chunk_ID chunk = "" \/ chunk_Choices chunk = [] ->
  indexed (acc_Choices a) -> indexed (acc_Choices (prepared chunk a)).
Proof.
  intros Hchunk Ha. unfold prepared.
  set (a2 := if chunk_Usage chunk is Some _ then _ else _).
  assert (indexed (acc_Choices a2)) as Ha2.
  { subst a2. unfold initialised, nonempty.
    destruct Hchunk as [H|H].
    - rewrite (bool_decide_true _ H), andb_false_r. by destruct (chunk_Usage chunk).
    - rewrite H.
      destruct (bool_decide (acc_ID a = "") && _), (chunk_Usage chunk); simpl;
        first [exact Ha | apply indexed_fresh_0]. }
  destruct (_ && _); [apply indexed_fresh_0|done].
Qed.

(** X10. Every slot keeps its position as its index: when no chunk carries
    both an ID and choices (none built by the decoder does), feeding the
    chunks to an accumulator whose slots are indexed by position, a new
    one for instance, leaves them so. *)
Theorem choices_indexed_by_position (chunks : list ResponseStreamResponse)
    (a a' : ResponsesStreamAccumulator) :
  Forall (fun chunk => chunk_ID chunk = "" \/ chunk_Choices chunk = []) chunks ->
  indexed (acc_Choices a) ->
  feed chunks a = Returned tt a' ->
  indexed (acc_Choices a').
Proof.
  intros Hchunks Ha Hfeed.
  apply (feed_invariant (fun a => indexed (acc_Choices a)) chunks) with (a := a);
    [|done..].
  intros chunk a0 Hin Ha0. rewrite added_prepared. cbn [acc_Choices set_Choices].
  assert (indexed (acc_Choices (prepared chunk a0))) as Hp.
  { apply indexed_prepared; [|done]. by apply (proj1 (Forall_forall _ _) Hchunks). }
  revert Hp. generalize (acc_Choices (prepared chunk a0)).
  induction (chunk_Choices chunk) as [|choice choices IH]; intros cs Hcs; [done|].
  simpl. apply IH. by apply indexed_merged_choices.
Qed.

Lemma choices_indexed_by_position_witness :
  Forall (fun chunk => chunk_ID chunk = "" \/ chunk_Choices chunk = [])
    [created_chunk; ContentDelta 2 "Hi"] /\
  indexed (acc_Choices new_accumulator) /\
  feed [created_chunk; ContentDelta 2 "Hi"] new_accumulator
  = Returned tt (mkAcc "resp_1" "response" 1700000000 "gpt-4o"
                   [fresh_choice 0; fresh_choice 1; set_Content "Hi" (fresh_choice 2)]
                   None) /\
  indexed (acc_Choices (mkAcc "resp_1" "response" 1700000000 "gpt-4o"
                          [fresh_choice 0; fresh_choice 1;
                           set_Content "Hi" (fresh_choice 2)] None)).
Proof.
  assert (Forall (fun chunk => chunk_ID chunk = "" \/ chunk_Choices chunk = [])
            [created_chunk; ContentDelta 2 "Hi"]) as Hc
    by (constructor; [by right|constructor; [by left|constructor]]).
  assert (indexed (acc_Choices new_accumulator)) as Hi by (by intros k c).
  split; [exact Hc|]. split; [exact Hi|]. split; [by vm_compute|].
  apply (choices_indexed_by_position [created_chunk; ContentDelta 2 "Hi"]
           new_accumulator); [exact Hc|exact Hi|by vm_compute].
Defined.

(** ** Content only grows *)

Lemma content_in_pad cs idx k : content_in (pad cs idx) k = content_in cs k.
Proof.
  unfold content_in. rewrite pad_lookup. repeat case_decide; [done|..].
  - by rewrite (lookup_ge_None_2 cs) by lia.
  - by rewrite (lookup_ge_None_2 cs) by lia.
Qed.

Lemma content_in_merged_choices cs choice k :
  exists suffix,
    content_in (merged_choices cs choice) k = content_in cs k +:+ suffix.
Proof.
  rewrite <- (content_in_pad cs (sc_Index choice) k).
  unfold content_in, merged_choices. rewrite list_lookup_alter.
  case_decide as Hk.
  - rewrite Hk. destruct (pad cs (sc_Index choice) !! k) as [c0|]; simpl.
    + destruct (merged_choice_fields choice c0) as (_ & _ & -> & _). by eexists.
    + by exists "".
  - exists "". by rewrite string_app_empty_r.
Qed.

Lemma content_in_fold_merged_choices choices cs k :
  exists suffix,
    content_in (fold_left merged_choices choices cs) k = content_in cs k +:+ suffix.
Proof.
  revert cs. induction choices as [|choice choices IH]; intros cs.
  - exists "". by rewrite string_app_empty_r.
  - simpl. destruct (IH (merged_choices cs choice)) as [s2 ->].
    destruct (content_in_merged_choices cs choice k) as [s1 ->].
    exists (s1 +:+ s2). by rewrite string_app_assoc.
Qed.

Lemma content_in_prepared chunk a k :
  acc_ID a ≠ "" \/ chunk_ID chunk = "" ->
  content_in (acc_Choices (prepared chunk a)) k = content_in (acc_Choices a) k.
Proof.
  intros Hinit. unfold prepared.
  assert (initialised chunk a = a) as ->.
  { unfold initialised, nonempty.
    destruct Hinit as [H|H]; [by rewrite (bool_decide_false _ H)|].
    by rewrite (bool_decide_true _ H), andb_false_r. }
  set (a2 := if chunk_Usage chunk is Some _ then _ else a).
  assert (acc_Choices a2 = acc_Choices a) as Ha2
    by (subst a2; by destruct (chunk_Usage chunk)).
  destruct ((len (acc_Choices a2) =? 0) && _) eqn:Hcond; [|by rewrite Ha2].
  apply andb_true_iff in Hcond as [Hlen _]. apply Z.eqb_eq in Hlen.
  rewrite Ha2 in Hlen. destruct (acc_Choices a) as [|c cs]; [|done].
  unfold content_in. by destruct k as [|k].
Qed.

(** X11. Between re-initialisations the content of a choice only grows: a
    returning [AddChunk] of a chunk that does not set the ID for the first
    time leaves, at every position, the old content extended by a suffix
    (the empty one when nothing was appended). *)
Theorem content_only_grows (chunk : ResponseStreamResponse)
    (a a' : ResponsesStreamAccumulator) (k : nat) :
  acc_ID a ≠ "" \/ chunk_ID chunk = "" ->
  AddChunk chunk a = Returned tt a' ->
  exists suffix, content_at a' k = content_at a k +:+ suffix.
Proof.
  intros Hinit [_ ->]%AddChunk_Returned.
  change (exists suffix,
            content_in (acc_Choices (added chunk a)) k
            = content_in (acc_Choices a) k +:+ suffix).
  rewrite added_prepared. cbn [acc_Choices set_Choices].
  rewrite <- (content_in_prepared chunk a k Hinit).
  apply content_in_fold_merged_choices.
Qed.

Lemma content_only_grows_witness :
  (acc_ID (state_of (AddChunk (ContentDelta 0 "Hello") new_accumulator)) ≠ ""
   \/ chunk_ID (ContentDelta 0 ", world") = "") /\
  AddChunk (ContentDelta 0 ", world")
    (state_of (AddChunk (ContentDelta 0 "Hello") new_accumulator))
  = Returned tt (set_Choices [set_Content "Hello, world" (fresh_choice 0)]
                   new_accumulator) /\
  (exists suffix,
     content_at (set_Choices [set_Content "Hello, world" (fresh_choice 0)]
                   new_accumulator) 0
     = content_at (state_of (AddChunk (ContentDelta 0 "Hello") new_accumulator)) 0
       +:+ suffix).
Proof.
  split; [by right|]. split; [by vm_compute|].
  apply (content_only_grows (ContentDelta 0 ", world")
           (state_of (AddChunk (ContentDelta 0 "Hello") new_accumulator)));
    [by right|by vm_compute].
Defined.

(** ** What a call of [Recv] returns and leaves behind *)

Section Recv_more.

Variable json_Unmarshal : string -> string + gmap string JValue.

Lemma Recv_from_outcome lines fail :
  let r := (Recv_from json_Unmarshal lines fail None).1 in
  let s' := (Recv_from json_Unmarshal lines fail None).2 in
  rd_fail (reader s') = fail
  /\ rd_lines (reader s') `suffix_of` lines
  /\ match r with
     | Chunk c =>
         nothing_useful c = false
         /\ (err s' = None \/ err s' = Some io_EOF)
         /\ (chunk_Usage c ≠ None -> err s' = Some io_EOF)
         /\ (err s' = Some io_EOF -> chunk_Choices c = [])
         /\ (length (rd_lines (reader s')) < length lines)%nat
     | Failed e => err s' = Some e
     end.
Proof.
  induction lines as [|raw rest IH]; [by repeat split|].
  assert (forall x : received * ResponsesStream,
    rd_fail (reader x.2) = fail
    /\ rd_lines (reader x.2) `suffix_of` rest
    /\ match x.1 with
       | Chunk c =>
           nothing_useful c = false
           /\ (err x.2 = None \/ err x.2 = Some io_EOF)
           /\ (chunk_Usage c ≠ None -> err x.2 = Some io_EOF)
           /\ (err x.2 = Some io_EOF -> chunk_Choices c = [])
           /\ (length (rd_lines (reader x.2)) <= length rest)%nat
       | Failed e => err x.2 = Some e
       end ->
    rd_fail (reader x.2) = fail
    /\ rd_lines (reader x.2) `suffix_of` raw :: rest
    /\ match x.1 with
       | Chunk c =>
           nothing_useful c = false
           /\ (err x.2 = None \/ err x.2 = Some io_EOF)
           /\ (chunk_Usage c ≠ None -> err x.2 = Some io_EOF)
           /\ (err x.2 = Some io_EOF -> chunk_Choices c = [])
           /\ (length (rd_lines (reader x.2)) < length (raw :: rest))%nat
       | Failed e => err x.2 = Some e
       end) as Hlift.
  { intros [r s'] (Hf & Hs & Hr). simpl in *. split; [done|].
    split; [by apply suffix_cons_r|].
    destruct r as [c|e]; [|done]. destruct Hr as (? & ? & ? & ? & ?).
    repeat split; try done. lia. }
  assert (rd_fail (reader (Recv_from json_Unmarshal rest fail None).2) = fail
    /\ rd_lines (reader (Recv_from json_Unmarshal rest fail None).2) `suffix_of` rest
    /\ match (Recv_from json_Unmarshal rest fail None).1 with
       | Chunk c =>
           nothing_useful c = false
           /\ (err (Recv_from json_Unmarshal rest fail None).2 = None
               \/ err (Recv_from json_Unmarshal rest fail None).2 = Some io_EOF)
           /\ (chunk_Usage c ≠ None ->
               err (Recv_from json_Unmarshal rest fail None).2 = Some io_EOF)
           /\ (err (Recv_from json_Unmarshal rest fail None).2 = Some io_EOF ->
               chunk_Choices c = [])
           /\ (length (rd_lines (reader (Recv_from json_Unmarshal rest fail None).2))
               <= length rest)%nat
       | Failed e => err (Recv_from json_Unmarshal rest fail None).2 = Some e
       end) as IH'.
  { destruct IH as (? & ? & Hr). split; [done|]. split; [done|].
    destruct (Recv_from json_Unmarshal rest fail None).1; [|done].
    destruct Hr as (? & ? & ? & ? & ?). repeat split; try done. lia. }
  cbv zeta. destruct (frame_payload raw) as [data|] eqn:Hp.
  2:{ rewrite (Recv_from_no_payload _ _ _ _ Hp). by apply Hlift. }
  rewrite (Recv_from_payload _ _ _ _ _ Hp).
  case_bool_decide.
  { apply (Hlift (Failed io_EOF, mkStream (mkReader rest fail) (Some io_EOF))).
    by repeat split. }
  destruct (json_Unmarshal data) as [msg|eventData].
  { apply (Hlift (Failed (json_error msg),
                  mkStream (mkReader rest fail) (Some (json_error msg)))).
    by repeat split. }
  destruct (decode_event_shape eventData) as (_ & _ & Husage & Hterm).
  destruct (nothing_useful (decode_event eventData).1) eqn:Huseful.
  - destruct (decode_event eventData).2.
    + rewrite Recv_from_failed.
      apply (Hlift (Failed io_EOF, mkStream (mkReader rest fail) (Some io_EOF))).
      by repeat split.
    + by apply Hlift.
  - apply (Hlift (Chunk (decode_event eventData).1,
                  mkStream (mkReader rest fail)
                    (if (decode_event eventData).2 then Some io_EOF else None))).
    simpl. repeat split; try done.
    + destruct (decode_event eventData).2; auto.
    + intros Hu. by rewrite (Husage Hu).
    + destruct (decode_event eventData).2; [by intros _; apply Hterm|done].
Qed.

Lemma Recv_outcome s r s' :
  Recv json_Unmarshal s = (r, s') ->
  match err s with
  | Some e => r = Failed e /\ s' = s
  | None =>
      rd_fail (reader s') = rd_fail (reader s)
      /\ rd_lines (reader s') `suffix_of` rd_lines (reader s)
      /\ match r with
         | Chunk c =>
             nothing_useful c = false
             /\ (err s' = None \/ err s' = Some io_EOF)
             /\ (chunk_Usage c ≠ None -> err s' = Some io_EOF)
             /\ (err s' = Some io_EOF -> chunk_Choices c = [])
             /\ (length (rd_lines (reader s')) < length (rd_lines (reader s)))%nat
         | Failed e => err s' = Some e
         end
  end.
Proof.
  unfold Recv. destruct s as [[lines fail] [e|]]; cbn [err reader rd_lines rd_fail].
  - rewrite Recv_from_failed. by intros [= <- <-].
  - intros H. pose proof (Recv_from_outcome lines fail) as Ho.
    rewrite H in Ho. exact Ho.
Qed.

(** X12. [Recv] never returns an empty response: a response it returns
    has a choice, a non-empty ID or a usage. *)
Theorem Recv_returns_useful_responses (s s' : ResponsesStream)
    (response : ResponseStreamResponse) :
  Recv json_Unmarshal s = (Chunk response, s') ->
  chunk_Choices response ≠ [] \/ chunk_ID response ≠ ""
  \/ chunk_Usage response ≠ None.
Proof.
  intros H. apply Recv_outcome in H. destruct (err s); [by destruct H|].
  destruct H as (_ & _ & Hu & _). unfold nothing_useful in Hu.
  destruct (chunk_Choices response); [|by left].
  case_bool_decide; [|by right; left].
  destruct (chunk_Usage response); [by right; right|done].
Qed.

(** X13. An error is kept: whatever [Recv] fails with ([io.EOF], a read
    error or a decode error) is stored, every later [Recv] returns it
    again without touching the reader, and [Err] reports it unless it is
    [io.EOF]. *)
Theorem Recv_errors_are_sticky (s s' : ResponsesStream) (e : error) :
  Recv json_Unmarshal s = (Failed e, s') ->
  err s' = Some e
  /\ Recv json_Unmarshal s' = (Failed e, s')
  /\ Err s' = (if bool_decide (e = io_EOF) then None else Some e).
Proof.
  intros H. apply Recv_outcome in H as Ho.
  assert (err s' = Some e) as He.
  { destruct (err s) as [e0|] eqn:Hs.
    - destruct Ho as [[= ->] ->]. done.
    - by destruct Ho as (_ & _ & ?). }
  split; [done|]. split.
  - unfold Recv. rewrite He, Recv_from_failed.
    destruct s' as [[lines fail] e']. simpl in He. by subst.
  - unfold Err. rewrite He. repeat case_bool_decide; by simplify_eq.
Qed.

(** X14. The reader only moves forward: after a call of [Recv] the lines
    left are a suffix of the lines before, a call that returns a response
    has read at least one line, and the response with usage, the last one,
    leaves the stream finished with [io.EOF] and carries no choice. *)
Theorem Recv_moves_forward (s s' : ResponsesStream) (r : received) :
  Recv json_Unmarshal s = (r, s') ->
  rd_fail (reader s') = rd_fail (reader s)
  /\ rd_lines (reader s') `suffix_of` rd_lines (reader s)
  /\ (forall response, r = Chunk response ->
        (length (rd_lines (reader s')) < length (rd_lines (reader s)))%nat
        /\ (err s' = None \/ err s' = Some io_EOF)
        /\ (chunk_Usage response ≠ None -> err s' = Some io_EOF)
        /\ (err s' = Some io_EOF -> chunk_Choices response = [])).
Proof.
  intros H. apply Recv_outcome in H. destruct (err s).
  - destruct H as [-> ->]. by repeat split.
  - destruct H as (Hf & Hs & Hr). split; [done|]. split; [done|].
    intros c ->. destruct Hr as (_ & ? & ? & ? & ?). by repeat split.
Qed.

(** X15. When the reader fails after lines that are all passed over,
    [Recv] returns the reader's error: [io.EOF] at an orderly end, which
    [Err] hides, or the read error, which [Err] reports. *)
Theorem Recv_returns_read_failure (pre : list string) (fail : error) :
  skipped_lines json_Unmarshal pre ->
  Recv json_Unmarshal (mkStream (mkReader pre fail) None)
  = (Failed fail, mkStream (mkReader [] fail) (Some fail))
  /\ Err (mkStream (mkReader [] fail) (Some fail))
     = (if bool_decide (fail = io_EOF) then None else Some fail).
Proof.
  intros Hpre. split.
  - unfold Recv. cbn [reader rd_lines rd_fail err].
    rewrite <- (app_nil_r pre). by rewrite (Recv_from_skipped _ _ _ _ Hpre).
  - unfold Err. cbn [err]. repeat case_bool_decide; by simplify_eq.
Qed.

(** X16. The receive loop of the README and the examples ends on every
    finite input: with more iterations than the reader has lines it is
    drained, exits on an error or crashes in [AddChunk], but never runs
    out. *)
Theorem receive_loop_terminates (fuel : nat) (s : ResponsesStream)
    (a : ResponsesStreamAccumulator) :
  (length (rd_lines (reader s)) < fuel)%nat ->
  receive_loop json_Unmarshal fuel s a ≠ Unfinished.
Proof.
  revert s a. induction fuel as [|fuel IH]; intros s a Hfuel; [lia|].
  simpl. destruct (Recv json_Unmarshal s) as [[c|e] s'] eqn:HRecv.
  - apply Recv_outcome in HRecv. destruct (err s); [by destruct HRecv|].
    destruct HRecv as (_ & _ & _ & _ & _ & _ & Hlen).
    destruct (AddChunk c a) as [[] a'|a']; [|done]. apply IH. lia.
  - by case_bool_decide.
Qed.

End Recv_more.

Lemma Recv_returns_useful_responses_witness :
  Recv sample_Unmarshal
    (mkStream (mkReader [newline; frame payload_text_delta] io_EOF) None)
  = (Chunk (ContentDelta 0 "Hi"), mkStream (mkReader [] io_EOF) None) /\
  (chunk_Choices (ContentDelta 0 "Hi") ≠ [] \/ chunk_ID (ContentDelta 0 "Hi") ≠ ""
   \/ chunk_Usage (ContentDelta 0 "Hi") ≠ None).
Proof.
  split; [by vm_compute|].
  apply (Recv_returns_useful_responses sample_Unmarshal
           (mkStream (mkReader [newline; frame payload_text_delta] io_EOF) None)
           (mkStream (mkReader [] io_EOF) None)).
  by vm_compute.
Defined.

Lemma Recv_errors_are_sticky_witness :
  Recv sample_Unmarshal
    (mkStream (mkReader [frame "{"; frame payload_text_delta] io_EOF) None)
  = (Failed (json_error "invalid character"),
     mkStream (mkReader [frame payload_text_delta] io_EOF)
       (Some (json_error "invalid character"))) /\
  (err (mkStream (mkReader [frame payload_text_delta] io_EOF)
          (Some (json_error "invalid character")))
   = Some (json_error "invalid character")
   /\ Recv sample_Unmarshal
        (mkStream (mkReader [frame payload_text_delta] io_EOF)
           (Some (json_error "invalid character")))
      = (Failed (json_error "invalid character"),
         mkStream (mkReader [frame payload_text_delta] io_EOF)
           (Some (json_error "invalid character")))
   /\ Err (mkStream (mkReader [frame payload_text_delta] io_EOF)
             (Some (json_error "invalid character")))
      = (if bool_decide (json_error "invalid character" = io_EOF) then None
         else Some (json_error "invalid character"))).
Proof.
  split; [by vm_compute|].
  apply (Recv_errors_are_sticky sample_Unmarshal
           (mkStream (mkReader [frame "{"; frame payload_text_delta] io_EOF) None)).
  by vm_compute.
Defined.

Lemma Recv_moves_forward_witness :
  Recv sample_Unmarshal
    (mkStream (mkReader [keep_alive; frame payload_completed; frame payload_text_delta]
                 io_EOF) None)
  = (Chunk (mkChunk "resp_1" "" 0 "" [] (Some (mkUsage 10 20 30))),
     mkStream (mkReader [frame payload_text_delta] io_EOF) (Some io_EOF)) /\
  (rd_fail (reader (mkStream (mkReader [frame payload_text_delta] io_EOF) (Some io_EOF)))
   = rd_fail (reader (mkStream (mkReader [keep_alive; frame payload_completed;
                                          frame payload_text_delta] io_EOF) None))
   /\ rd_lines (reader (mkStream (mkReader [frame payload_text_delta] io_EOF)
                          (Some io_EOF)))
      `suffix_of`
      rd_lines (reader (mkStream (mkReader [keep_alive; frame payload_completed;
                                            frame payload_text_delta] io_EOF) None))
   /\ (forall response,
         Chunk (mkChunk "resp_1" "" 0 "" [] (Some (mkUsage 10 20 30))) = Chunk response ->
         (length (rd_lines (reader (mkStream (mkReader [frame payload_text_delta] io_EOF)
                                      (Some io_EOF))))
          < length (rd_lines (reader (mkStream (mkReader [keep_alive;
                      frame payload_completed; frame payload_text_delta] io_EOF)
                      None))))%nat
         /\ (err (mkStream (mkReader [frame payload_text_delta] io_EOF) (Some io_EOF))
             = None
             \/ err (mkStream (mkReader [frame payload_text_delta] io_EOF) (Some io_EOF))
                = Some io_EOF)
         /\ (chunk_Usage response ≠ None ->
             err (mkStream (mkReader [frame payload_text_delta] io_EOF) (Some io_EOF))
             = Some io_EOF)
         /\ (err (mkStream (mkReader [frame payload_text_delta] io_EOF) (Some io_EOF))
             = Some io_EOF -> chunk_Choices response = []))).
Proof.
  split; [by vm_compute|].
  apply (Recv_moves_forward sample_Unmarshal
           (mkStream (mkReader [keep_alive; frame payload_completed;
                                frame payload_text_delta] io_EOF) None)).
  by vm_compute.
Defined.

Lemma Recv_returns_read_failure_witness :
  skipped_lines sample_Unmarshal [newline; keep_alive] /\
  (Recv sample_Unmarshal
     (mkStream (mkReader [newline; keep_alive] (read_error "connection reset")) None)
   = (Failed (read_error "connection reset"),
      mkStream (mkReader [] (read_error "connection reset"))
        (Some (read_error "connection reset")))
   /\ Err (mkStream (mkReader [] (read_error "connection reset"))
             (Some (read_error "connection reset")))
      = (if bool_decide (read_error "connection reset" = io_EOF) then None
         else Some (read_error "connection reset"))).
Proof.
  split; [skipped_by_evaluation|].
  apply (Recv_returns_read_failure sample_Unmarshal [newline; keep_alive]
           (read_error "connection reset")).
  skipped_by_evaluation.
Defined.

Lemma receive_loop_terminates_witness :
  (length (rd_lines (reader (mkStream
     (mkReader [frame payload_text_delta; frame payload_completed] io_EOF) None)))
   < 3)%nat /\
  receive_loop sample_Unmarshal 3
    (mkStream (mkReader [frame payload_text_delta; frame payload_completed] io_EOF) None)
    new_accumulator ≠ Unfinished.
Proof.
  split; [simpl; lia|].
  apply (receive_loop_terminates sample_Unmarshal 3
           (mkStream (mkReader [frame payload_text_delta; frame payload_completed]
                        io_EOF) None) new_accumulator).
  simpl. lia.
Defined.

(** * The non-streaming call, the accessors and the client options *)

(** X17. The materialized response has no [OutputText] of its own, and
    [GetOutputText] on it is the content accumulated for choice 0 (empty
    when there is no choice): after content deltas for choice 0 it is the
    content before followed by the fragments in order. *)
Theorem materialized_output_text (a : ResponsesStreamAccumulator)
    (fragments : list string) :
  (exists doc, ToResponse a = Returned doc a
     /\ GetOutputText doc = content_at a 0
     /\ resp_OutputText doc = ""
     /\ resp_Usage doc = acc_Usage a)
  /\ (exists a' doc',
        bind (feed (map (ContentDelta 0) fragments)) (fun _ => ToResponse) a
        = Returned doc' a'
        /\ GetOutputText doc' = content_at a 0 +:+ foldr String.append "" fragments).
Proof.
  assert (forall a0, GetOutputText
            (mkResponse (acc_ID a0) (acc_Object a0) (acc_Created a0) (acc_Model a0)
               (map materialized_choice (acc_Choices a0)) (acc_Usage a0) "")
          = content_at a0 0) as Hget.
  { intros a0. unfold GetOutputText, content_at. simpl.
    destruct (acc_Choices a0) as [|c cs]; [done|]. simpl.
    by case_bool_decide. }
  split.
  - eexists. split; [apply ToResponse_spec|]. by rewrite Hget.
  - destruct (feed_content 0 fragments a) as (a' & Hfeed & Hcontent); [lia|].
    exists a'. eexists. split.
    + rewrite bind_Returned with (x := tt) (a' := a') by done. apply ToResponse_spec.
    + by rewrite Hget.
Qed.

(** X18. [Create] passes the error of the request on; on success it
    returns the decoded response with every field but [OutputText] as
    decoded, so [GetOutputText] is unaffected, and it sets [OutputText] to
    the content of the first choice exactly when that content is not
    empty, leaving the decoded [OutputText] otherwise. *)
Theorem Create_sets_output_text {Request HTTPError : Type}
    (post : string -> Request -> HTTPError + ResponseResponse) (request : Request) :
  match post "/responses" request with
  | inl e => Create post request = inl e
  | inr response =>
      exists r, Create post request = inr r
        /\ (resp_ID r, resp_Object r, resp_Created r, resp_Model r,
            resp_Choices r, resp_Usage r)
           = (resp_ID response, resp_Object response, resp_Created response,
              resp_Model response, resp_Choices response, resp_Usage response)
        /\ GetOutputText r = GetOutputText response
        /\ resp_OutputText r =
           (if nonempty (GetOutputText response) then GetOutputText response
            else resp_OutputText response)
  end.
Proof.
  unfold Create, responsesEndpoint.
  destruct (post "/responses" request) as [e|[i o cr m chs u ot]]; [done|].
  unfold GetOutputText, nonempty. cbn [resp_Choices].
  destruct chs as [|c cs]; [by eexists|].
  case_bool_decide as Hcontent; simpl; eexists; (split; [reflexivity|]); simpl.
  - by rewrite (bool_decide_true _ Hcontent).
  - by rewrite (bool_decide_false _ Hcontent).
Qed.

(** ** Client options *)

Lemma fold_options (os : list option_spec) (c0 : Client) :
  let c := fold_left (fun client option => option client) (map option_of os) c0 in
  BaseURL c = last_set picks_BaseURL (BaseURL c0) os
  /\ APIKey c = last_set picks_APIKey (APIKey c0) os
  /\ HTTPClient c = last_set picks_HTTPClient (HTTPClient c0) os
  /\ UserAgent c = last_set picks_UserAgent (UserAgent c0) os
  /\ Organization c = last_set picks_Organization (Organization c0) os.
Proof.
  revert c0. induction os as [|o os IH]; intros c0; [done|].
  simpl. destruct (IH (option_of o c0)) as (-> & -> & -> & -> & ->).
  unfold last_set. by destruct o.
Qed.

Lemma NewClient_fields_aux (getenv : string) (os : list option_spec) :
  APIKey (NewClient getenv (map option_of os))
  = (if nonempty (last_set picks_APIKey "" os)
     then last_set picks_APIKey "" os else getenv).
Proof.
  unfold NewClient.
  destruct (fold_options os (mkClient DefaultBaseURL "" (Some (mkHttpClient DefaultTimeout))
                               DefaultUserAgent "")) as (_ & Hk & _).
  cbv zeta in *. simpl in Hk. unfold nonempty. rewrite <- Hk.
  by case_bool_decide.
Qed.

(** X19. [NewClient] applies the options in order, so every field holds
    the value of the last option that sets it and its default when there
    is none; the API key falls back to the environment variable exactly
    when the options leave it empty. *)
Theorem NewClient_fields (getenv : string) (os : list option_spec) :
  let c := NewClient getenv (map option_of os) in
  BaseURL c = last_set picks_BaseURL DefaultBaseURL os
  /\ HTTPClient c = last_set picks_HTTPClient (Some (mkHttpClient DefaultTimeout)) os
  /\ UserAgent c = last_set picks_UserAgent DefaultUserAgent os
  /\ Organization c = last_set picks_Organization "" os
  /\ APIKey c = (if nonempty (last_set picks_APIKey "" os)
                 then last_set picks_APIKey "" os else getenv).
Proof.
  unfold NewClient.
  destruct (fold_options os (mkClient DefaultBaseURL "" (Some (mkHttpClient DefaultTimeout))
                               DefaultUserAgent "")) as (Hb & Hk & Hh & Hu & Ho).
  cbv zeta in *. simpl in Hb, Hk, Hh, Hu, Ho. unfold nonempty. rewrite <- Hk.
  case_bool_decide; simpl; by rewrite ?Hb, ?Hh, ?Hu, ?Ho.
Qed.

(** X20. The exported constructor puts its [apiKey] argument before the
    options: a key option among them overrides the argument, and without
    one the key is the argument, or the environment variable when the
    argument is empty. *)
Theorem openairesponses_NewClient_key (getenv apiKey : string)
    (os : list option_spec) :
  APIKey (openairesponses_NewClient getenv apiKey (map option_of os))
  = (if nonempty (last_set picks_APIKey apiKey os)
     then last_set picks_APIKey apiKey os else getenv)
  /\ (Forall (fun o => picks_APIKey o = None) os ->
      APIKey (openairesponses_NewClient getenv apiKey (map option_of os))
      = (if nonempty apiKey then apiKey else getenv)).
Proof.
  assert (APIKey (openairesponses_NewClient getenv apiKey (map option_of os))
          = (if nonempty (last_set picks_APIKey apiKey os)
             then last_set picks_APIKey apiKey os else getenv)) as Hkey.
  { change (openairesponses_NewClient getenv apiKey (map option_of os))
      with (NewClient getenv (map option_of (SetAPIKey apiKey :: os))).
    by rewrite NewClient_fields_aux. }
  split; [done|]. intros Hos. rewrite Hkey.
  assert (last_set picks_APIKey apiKey os = apiKey) as ->; [|done].
  unfold last_set. clear Hkey. revert apiKey.
  induction Hos as [|o os Ho _ IH]; intros k; [done|].
  simpl. rewrite Ho. apply IH.
Qed.
